(** * babel-plugin-remove-graphql-queries: a shallow embedding

    The plugin of [packages/babel-plugin-remove-graphql-queries/src/index.ts]
    rewrites a Babel syntax tree.  The tree, the scope table and the set of
    tags whose import is to be removed are JavaScript objects mutated in
    place; here they are the fields of one explicit [State], threaded through
    a state-and-exception monad.  A [NodePath] is the identity of a node
    ([nid]); the facts a path carries ([key], [scope]) are stored on the
    node. *)

From stdpp Require Import base option list strings gmap pretty.

(** ** Syntax tree *)

Definition NodeId := nat.
Definition ScopeId := nat.

Inductive NodeType :=
| Program
| ImportDeclaration
| ImportSpecifier
| ImportDefaultSpecifier
| ImportNamespaceSpecifier
| ExportNamedDeclaration
| VariableDeclaration
| VariableDeclarator
| ObjectPattern
| ObjectProperty
| RestElement
| Identifier
| StringLiteral
| MemberExpression
| CallExpression
| TaggedTemplateExpression
| TemplateLiteral
| TemplateElement
| JSXElement
| JSXOpeningElement
| JSXClosingElement
| JSXAttribute
| JSXIdentifier
| JSXExpressionContainer
| OtherNode (label : string).

#[global] Instance NodeType_eq_dec : EqDecision NodeType.
Proof. solve_decision. Defined.

Record Position := { line : nat; column : nat }.

Record SourceLocation := { loc_start : Position; loc_end : Position }.

(** A node with the path facts Babel attaches to it.  [name] is
    [node.name] of an [Identifier] or [JSXIdentifier], [value] is
    [node.value] of a [StringLiteral], [raw] is [node.value.raw] of a
    [TemplateElement]; a field the node type does not have is [None]
    (JavaScript's [undefined]).  Child nodes are listed in source order, each
    under the [key] of the parent field that holds it: a list-valued field
    such as [specifiers] or [arguments] contributes one child per element. *)
#[local] Unset Elimination Schemes.
Inductive Node := mkNode {
  nid : NodeId;
  type : NodeType;
  key : string;
  name : option string;
  value : option string;
  raw : option string;
  loc : option SourceLocation;
  scope : ScopeId;
  kids : list Node }.
#[local] Set Elimination Schemes.

(** [path.get(k)] for a single-valued field and for a list-valued one. *)
Definition get (k : string) (n : Node) : option Node :=
  head (filter (λ c, key c = k) (kids n)).

Definition getList (k : string) (n : Node) : list Node :=
  filter (λ c, key c = k) (kids n).

(** Type tests on a path whose node may be missing ([path.isX()] answers
    [false] then). *)
Definition isType (t : NodeType) (p : option Node) : bool :=
  match p with
  | Some n => bool_decide (type n = t)
  | None => false
  end.

(** [path.isIdentifier({ name: nm })]. *)
Definition isIdentifierNamed (nm : string) (p : option Node) : bool :=
  match p with
  | Some n => bool_decide (type n = Identifier) && bool_decide (name n = Some nm)
  | None => false
  end.

(** [p.node.name], [undefined] when there is no such field. *)
Definition nameOf (p : option Node) : option string := p ≫= name.

(** The first answer [f] gives along a list. *)
Definition firstSome {A B} (f : A → option B) : list A → option B :=
  fix go (l : list A) : option B :=
    match l with
    | [] => None
    | c :: l' =>
        match f c with
        | Some r => Some r
        | None => go l'
        end
    end.

(** First node with identity [i], in pre-order. *)
Fixpoint findNode (i : NodeId) (n : Node) : option Node :=
  if decide (nid n = i) then Some n
  else firstSome (findNode i) (kids n).

(** The chain of ancestors of node [i], nearest first. *)
Fixpoint ancestors (i : NodeId) (n : Node) : option (list Node) :=
  if decide (nid n = i) then Some []
  else firstSome (λ c, (λ up, up ++ [n]) <$> ancestors i c) (kids n).

(** Identities of the proper descendants of a node, in pre-order: the order
    in which [path.traverse] meets them. *)
Fixpoint descendants (n : Node) : list NodeId :=
  flat_map (λ c, nid c :: descendants c) (kids n).

(** A container in which every element with identity [i] is handed to [f]
    ([None] takes it out) and every other element to [rec]. *)
Definition alterKids (f : Node → option Node) (i : NodeId) (rec : Node → Node) :
    list Node → list Node :=
  fix go (l : list Node) : list Node :=
    match l with
    | [] => []
    | c :: l' =>
        if decide (nid c = i) then
          match f c with
          | Some c' => c' :: go l'
          | None => go l'
          end
        else rec c :: go l'
    end.

(** Rebuild the tree with [f] applied to the node of identity [i]. *)
Fixpoint alterNode (f : Node → option Node) (i : NodeId) (n : Node) : Node :=
  mkNode (nid n) (type n) (key n) (name n) (value n) (raw n) (loc n) (scope n)
    (alterKids f i (alterNode f i) (kids n)).

Definition setKids (ks : list Node) (n : Node) : Node :=
  mkNode (nid n) (type n) (key n) (name n) (value n) (raw n) (loc n) (scope n) ks.

(** ** Scopes and bindings *)

Record Binding := { kind : string; path : NodeId }.

Record Scope := { parent : option ScopeId; bindings : gmap string Binding }.

(** ** Faults *)

Inductive Error :=
| StringInterpolationNotAllowedError (interpolationStart interpolationEnd : Position)
| EmptyGraphQLTagError (templateLoc : option SourceLocation)
| GraphQLSyntaxError (documentText : string) (originalError : Error)
    (templateLoc : option SourceLocation)
| ParserError (message : string)
| TypeError (message : string)
| SyntaxError (message : string)
| RangeError (message : string).

(** ** The state of one pass *)

Inductive Cause := ByHookInjector | ByImportPruner (tag : NodeId).

(** Ghost record of what was done to the tree, oldest first. *)
Inductive Event :=
| EvEnqueue (tag : NodeId)
| EvReplace (at_ : NodeId)
| EvInject (at_ : NodeId)
| EvRemove (by_ : Cause) (removed : NodeId)
| EvPrune (tag : NodeId).

Record State := {
  tree : Node;
  scopes : gmap ScopeId Scope;
  globals : gset string;
  nextId : NodeId;
  tagsToRemoveImportsFrom : list Node;
  log : list Event }.

(** What the pass reads from its surroundings: [process.env.NODE_ENV],
    [state.file.opts.filename] and [process.cwd()]. *)
Record Env := { NODE_ENV : option string; filename : option string; cwd : string }.

Record Document := { definitions : list string }.

(** The collaborators that are not part of this file: [murmurhash] of
    [./murmur], [graphql.parse] of [gatsby/graphql], and Node's [path]
    module. *)
Class Externals := {
  murmurhash : string → N → N;
  graphql_parse : string → Error + Document;
  nodePath_join : string → string → string;
  nodePath_relative : string → string → string;
  nodePath_dir : string → string }.

(** [scope.getBinding(name)]: the own binding of the nearest scope that has
    one.  The walk is bounded by the number of scopes, which is enough for
    any parent chain without a cycle. *)
Fixpoint getBindingFrom (fuel : nat) (sc : gmap ScopeId Scope) (s : ScopeId)
    (nm : string) : option Binding :=
  match fuel with
  | 0 => None
  | S fuel' =>
      match sc !! s with
      | None => None
      | Some r =>
          match bindings r !! nm with
          | Some b => Some b
          | None =>
              match parent r with
              | Some p => getBindingFrom fuel' sc p nm
              | None => None
              end
          end
      end
  end.

(** [name] is [undefined] for a node that is not an identifier; no binding
    is looked up then. *)
Definition getBinding (st : State) (s : ScopeId) (nm : option string) : option Binding :=
  match nm with
  | Some x => getBindingFrom (S (size (scopes st))) (scopes st) s x
  | None => None
  end.

(** [scope.hasGlobal(name)]: the program scope recorded a free reference. *)
Definition hasGlobal (st : State) (nm : string) : bool :=
  bool_decide (nm ∈ globals st).

Definition pathNode (st : State) (i : NodeId) : option Node := findNode i (tree st).

Definition parentPath (st : State) (i : NodeId) : option Node :=
  ancestors i (tree st) ≫= head.

(** ** The monad of the pass

    A computation returns with the state it leaves, or throws with the state
    at the throw (nothing is rolled back in JavaScript). *)

Inductive Outcome (A : Type) :=
| Return (a : A) (s : State)
| Throw (e : Error) (s : State).
Arguments Return {A} a s.
Arguments Throw {A} e s.

Definition M (A : Type) : Type := State → Outcome A.

#[global] Instance M_ret : MRet M := λ A a st, Return a st.

#[global] Instance M_bind : MBind M := λ A B f m st,
  match m st with
  | Return a st' => f a st'
  | Throw e st' => Throw e st'
  end.

Definition throw {A} (e : Error) : M A := λ st, Throw e st.

Definition read {A} (f : State → A) : M A := λ st, Return (f st) st.

Definition modify (f : State → State) : M unit := λ st, Return () (f st).

Definition liftE {A} (r : Error + A) : M A :=
  match r with
  | inl e => throw e
  | inr a => mret a
  end.

(** Run a fallible reading of the state: its fault is thrown, the state is
    left as it is. *)
Definition readE {A} (f : State → Error + A) : M A := λ st, liftE (f st) st.

Definition when (b : bool) (m : M unit) : M unit := if b then m else mret ().

Fixpoint forEach {A} (f : A → M unit) (l : list A) : M unit :=
  match l with
  | [] => mret ()
  | x :: l' => f x ;; forEach f l'
  end.

Definition setTree (t : Node) (st : State) : State :=
  {| tree := t; scopes := scopes st; globals := globals st; nextId := nextId st;
     tagsToRemoveImportsFrom := tagsToRemoveImportsFrom st; log := log st |}.

Definition setScopes (sc : gmap ScopeId Scope) (st : State) : State :=
  {| tree := tree st; scopes := sc; globals := globals st; nextId := nextId st;
     tagsToRemoveImportsFrom := tagsToRemoveImportsFrom st; log := log st |}.

Definition setTags (ts : list Node) (st : State) : State :=
  {| tree := tree st; scopes := scopes st; globals := globals st; nextId := nextId st;
     tagsToRemoveImportsFrom := ts; log := log st |}.

Definition addLog (e : Event) (st : State) : State :=
  {| tree := tree st; scopes := scopes st; globals := globals st; nextId := nextId st;
     tagsToRemoveImportsFrom := tagsToRemoveImportsFrom st; log := log st ++ [e] |}.

Definition setNextId (i : NodeId) (st : State) : State :=
  {| tree := tree st; scopes := scopes st; globals := globals st; nextId := i;
     tagsToRemoveImportsFrom := tagsToRemoveImportsFrom st; log := log st |}.

(** The identity of a node that is being created. *)
Definition fresh : M NodeId := λ st, Return (nextId st) (setNextId (S (nextId st)) st).

(** ** Babel's tree operations *)

(** [path.traverse(visitor)]: the visitor meets the proper descendants of the
    path in pre-order.  The descendants are those present when the traversal
    starts; one that has left the tree by the time its turn comes is passed
    over, and the visitor sees each node as it is at that time. *)
Definition traverse (root : NodeId) (visitor : Node → M unit) : M unit :=
  r ← read (λ st, pathNode st root);
  match r with
  | None => mret ()
  | Some rn =>
      forEach (λ i, n ← read (λ st, pathNode st i);
                    match n with
                    | Some nd => visitor nd
                    | None => mret ()
                    end)
              (descendants rn)
  end.

(** [path.replaceWith(node)]: the path stays (identity, key and scope), the
    node under it is the new one. *)
Definition replaceWith (i : NodeId) (new : Node) : M unit :=
  modify (λ st,
    addLog (EvReplace i)
      (setTree (alterNode (λ old, Some (mkNode (nid old) (type new) (key old) (name new)
                                          (value new) (raw new) (loc new) (scope old)
                                          (kids new))) i (tree st)) st)).

(** The names a declaration binds ([getBindingIdentifiers]). *)
Definition bindingKeys (t : NodeType) : list string :=
  match t with
  | ImportDeclaration => ["specifiers"]
  | ImportSpecifier | ImportDefaultSpecifier | ImportNamespaceSpecifier => ["local"]
  | ExportNamedDeclaration => ["declaration"]
  | VariableDeclaration => ["declarations"]
  | VariableDeclarator => ["id"]
  | ObjectPattern => ["properties"]
  | ObjectProperty => ["value"]
  | RestElement => ["argument"]
  | _ => []
  end.

Fixpoint getBindingIdentifiers (n : Node) : list string :=
  match type n with
  | Identifier => from_option (λ x, [x]) [] (name n)
  | t =>
      flat_map (λ c, if bool_decide (key c ∈ bindingKeys t)
                     then getBindingIdentifiers c else [])
        (kids n)
  end.

(** [scope.removeBinding(name)]: the binding is dropped from the scope that
    owns it. *)
Fixpoint removeBindingFrom (fuel : nat) (sc : gmap ScopeId Scope) (s : ScopeId)
    (nm : string) : gmap ScopeId Scope :=
  match fuel with
  | 0 => sc
  | S fuel' =>
      match sc !! s with
      | None => sc
      | Some r =>
          match bindings r !! nm with
          | Some _ => <[s := {| parent := parent r; bindings := delete nm (bindings r) |}]> sc
          | None =>
              match parent r with
              | Some p => removeBindingFrom fuel' sc p nm
              | None => sc
              end
          end
      end
  end.

Definition removeFromScope (n : Node) (st : State) : State :=
  setScopes
    (foldr (λ nm sc, removeBindingFrom (S (size sc)) sc (scope n) nm) (scopes st)
       (getBindingIdentifiers n)) st.

(** [path.remove()]: the bindings of the node leave the scope, the node
    leaves its container.  One of Babel's removal hooks can apply to what
    this plugin removes: a declaration that is the [declaration] of an export
    takes the export statement with it (the path is marked as removed, and
    its parent is removed). *)
Definition remove (by_ : Cause) (n : Node) : M unit :=
  p ← read (λ st, parentPath st (nid n));
  let target :=
    match p with
    | Some pn =>
        if bool_decide (key n = "declaration") && bool_decide (type pn = ExportNamedDeclaration)
        then pn else n
    | None => n
    end in
  modify (λ st,
    addLog (EvRemove by_ (nid target))
      (setTree (alterNode (λ _, None) (nid n)
                  (alterNode (λ _, None) (nid target) (tree st)))
         (removeFromScope target (removeFromScope n st)))).

(** [path.unshiftContainer("body", node)] on the program path. *)
Definition unshiftContainer_body (n : Node) : M unit :=
  modify (λ st, setTree (setKids (n :: kids (tree st)) (tree st)) st).

(** [path.parent.attributes.push(node)]. *)
Definition attributes_push (parent_ : NodeId) (n : Node) : M unit :=
  modify (λ st,
    setTree (alterNode (λ p, Some (setKids (kids p ++ [n]) p)) parent_ (tree st)) st).

(** [path.findParent(p => p.isX())]. *)
Definition findParent (t : NodeType) (i : NodeId) (st : State) : option Node :=
  ancestors i (tree st) ≫= λ l, head (filter (λ a, type a = t) l).

(** [react.isCompatTag]: a tag name that starts with a lower-case letter. *)
Definition isCompatTag (nm : option string) : bool :=
  match nm with
  | Some (String c _) =>
      let k := Ascii.nat_of_ascii c in bool_decide (97 ≤ k) && bool_decide (k ≤ 122)
  | _ => false
  end.

(** [t.isReferenced(node, parent, grandparent)], for the node types of this
    model. *)
Definition isReferenced (n : Node) (anc : list Node) : bool :=
  match anc with
  | [] => true
  | p :: up =>
      match type p with
      | MemberExpression => bool_decide (key n = "object")
      | JSXAttribute => false
      | VariableDeclarator => bool_decide (key n = "init")
      | ImportSpecifier | ImportDefaultSpecifier | ImportNamespaceSpecifier => false
      | ObjectProperty =>
          bool_decide (key n = "value") && negb (isType ObjectPattern (head up))
      | ObjectPattern | RestElement => false
      | _ => true
      end
  end.

Definition isReferencedIdentifier (st : State) (n : Node) : bool :=
  (bool_decide (type n = Identifier)
   || (bool_decide (type n = JSXIdentifier) && negb (isCompatTag (name n))))
  && isReferenced n (default [] (ancestors (nid n) (tree st))).

(** [path.referencesImport(moduleSource, importName)]; the plugin passes the
    empty string or nothing as [importName], both of which are falsy. *)
Definition referencesImport (st : State) (n : option Node) (moduleSource : string)
    (importName : option string) : bool :=
  match n with
  | None => false
  | Some nd =>
      if negb (isReferencedIdentifier st nd) then false
      else
        match getBinding st (scope nd) (name nd) with
        | None => false
        | Some binding =>
            if negb (bool_decide (kind binding = "module")) then false
            else
              let path_ := pathNode st (path binding) in
              let parent_ := parentPath st (path binding) in
              if negb (isType ImportDeclaration parent_) then false
              else if bool_decide ((parent_ ≫= get "source") ≫= value = Some moduleSource)
              then
                match importName with
                | None | Some "" => true
                | Some imp =>
                    (isType ImportDefaultSpecifier path_ && bool_decide (imp = "default"))
                    || (isType ImportNamespaceSpecifier path_ && bool_decide (imp = "*"))
                    || (isType ImportSpecifier path_
                        && isIdentifierNamed imp (path_ ≫= get "imported"))
                end
              else false
        end
  end.

Section Plugin.
Context `{Externals}.

(** ** Tag resolution *)

Definition isGlobalIdentifier (st : State) (tag : option Node) : bool :=
  isIdentifierNamed "graphql" tag && hasGlobal st "graphql".

(** What the engine throws when a call finds no room on the call stack. *)
Definition stackOverflow : Error := RangeError "Maximum call stack size exceeded".

(** The recursion of the source has no bound of its own: what ends a chain
    that does not end by itself is the call stack of the engine.  [stack] is
    the number of nested calls of this function the stack has room for when
    the first call is made; the call that finds no room throws
    [stackOverflow].  The argument is [None] when the caller's [getBinding]
    found nothing and passed [undefined] on. *)
Fixpoint followVariableDeclarations (stack : nat) (st : State)
    (binding : option Binding) : Error + Binding :=
  match stack with
  | 0 => inl stackOverflow
  | S stack' =>
      match binding with
      | None => inl (TypeError "Cannot read properties of undefined (reading 'path')")
      | Some b =>
          match pathNode st (path b) with
          | Some node =>
              if bool_decide (type node = VariableDeclarator)
                 && isType Identifier (get "id" node)
                 && isType Identifier (get "init" node)
              then followVariableDeclarations stack' st
                     (getBinding st (scope node) (nameOf (get "init" node)))
              else inr b
          | None => inr b
          end
      end
  end.

Definition getTagImport (st : State) (tag : Node) : Error + option Node :=
  let name_ := name tag in
  match getBinding st (scope tag) name_ with
  | None => inr None
  | Some binding =>
      let path_ := pathNode st (path binding) in
      let parent_ := parentPath st (path binding) in
      if bool_decide (kind binding = "module")
         && isType ImportDeclaration parent_
         && bool_decide ((parent_ ≫= get "source") ≫= value = Some "gatsby")
      then inr path_
      else if isType VariableDeclarator path_
              && isType CallExpression (path_ ≫= get "init")
              && isIdentifierNamed "require" ((path_ ≫= get "init") ≫= get "callee")
      then
        match head (from_option (getList "arguments") [] (path_ ≫= get "init")) with
        | None => inl (TypeError "Cannot read properties of undefined (reading 'value')")
        | Some arg =>
            if bool_decide (value arg = Some "gatsby") then
              let id := path_ ≫= get "id" in
              if isType ObjectPattern id then
                (fix find (ps : list Node) : Error + option Node :=
                   match ps with
                   | [] => inr None
                   | p :: ps' =>
                       match get "value" p with
                       | None =>
                           inl (TypeError "Cannot read properties of undefined (reading 'name')")
                       | Some v =>
                           if bool_decide (name v = name_) then inr (Some p) else find ps'
                       end
                   end) (from_option (getList "properties") [] id)
              else inr id
            else inr None
        end
      else inr None
  end.

Definition isGraphqlTag (st : State) (tag : option Node) : Error + bool :=
  let isExpression := isType MemberExpression tag in
  let identifier := if isExpression then tag ≫= get "object" else tag in
  match identifier with
  | None => inl (TypeError "Cannot read properties of undefined (reading 'name')")
  | Some ident =>
      match getTagImport st ident with
      | inl e => inl e
      | inr None => inr (isGlobalIdentifier st tag)
      | inr (Some importPath) =>
          if isExpression
             && (isType ImportNamespaceSpecifier (Some importPath)
                 || isType Identifier (Some importPath))
          then inr (bool_decide (nameOf (tag ≫= get "property") = Some "graphql"))
          else if isType ImportSpecifier (Some importPath)
          then inr (bool_decide (nameOf (get "imported" importPath) = Some "graphql"))
          else if isType ObjectProperty (Some importPath)
          then inr (bool_decide (nameOf (get "key" importPath) = Some "graphql"))
          else inr false
      end
  end.

(** ** Query extraction *)

Inductive IGraphQLTag :=
| EmptyTag
| GraphQLTag (ast : Document) (text : string) (hash : N) (isGlobal : bool).

(** [new StringInterpolationNotAllowedError(start, end)]: the constructor
    copies both positions with [JSON.parse(JSON.stringify(x))], and
    [JSON.parse] of [undefined] throws a [SyntaxError]. *)
Definition newStringInterpolationNotAllowedError
    (interpolationStart interpolationEnd : option Position) : Error :=
  match interpolationStart, interpolationEnd with
  | Some s, Some e => StringInterpolationNotAllowedError s e
  | _, _ => SyntaxError "Unexpected token u in JSON at position 0"
  end.

(** [try { body } catch (err) { throw handler(err) }]. *)
Definition try_catch_rethrow {A} (body : Error + A) (handler : Error → Error) : Error + A :=
  match body with
  | inl err => inl (handler err)
  | inr a => inr a
  end.

Definition getGraphQLTag (st : State) (path_ : Node) : Error + IGraphQLTag :=
  let tag := get "tag" path_ in
  let isGlobal := isGlobalIdentifier st tag in
  match (if isGlobal then inr true else isGraphqlTag st tag) with
  | inl e => inl e
  | inr false => inr EmptyTag
  | inr true =>
      let quasis := from_option (getList "quasis") [] (get "quasi" path_) in
      match quasis with
      | [] => inl (TypeError "Cannot read properties of undefined (reading 'loc')")
      | [q] =>
          match raw q with
          | None => inl (TypeError "Cannot read properties of undefined (reading 'raw')")
          | Some text =>
              let hash := murmurhash text 0 in
              try_catch_rethrow
                (match graphql_parse text with
                 | inl err => inl err
                 | inr ast =>
                     if bool_decide (length (definitions ast) = 0)
                     then inl (EmptyGraphQLTagError (loc q))
                     else inr (GraphQLTag ast text hash isGlobal)
                 end)
                (λ err, GraphQLSyntaxError text err (loc q))
          end
      | q0 :: q1 :: _ =>
          inl (newStringInterpolationNotAllowedError
                 (loc_end <$> loc q0) (loc_start <$> loc q1))
      end
  end.

(** The tag is classified as a query tag: the test that lets
    [getGraphQLTag] go on to the template. *)
Definition isQueryTag (st : State) (tag : option Node) : Prop :=
  isGlobalIdentifier st tag = true ∨ isGraphqlTag st tag = inr true.

(** ** Import pruning *)

Definition removeVariableDeclaration (by_ : Cause) (statement : Node) : M unit :=
  declaration ← read (findParent VariableDeclaration (nid statement));
  match declaration with
  | Some d => remove by_ d
  | None => mret ()
  end.

Definition removeImport (tag : Node) : M unit :=
  modify (addLog (EvPrune (nid tag)));;
  let by_ := ByImportPruner (nid tag) in
  let isExpression := isType MemberExpression (Some tag) in
  let identifier := if isExpression then get "object" tag else Some tag in
  match identifier with
  | None => throw (TypeError "Cannot read properties of undefined (reading 'name')")
  | Some ident =>
      r ← readE (λ st, getTagImport st ident);
      match r with
      | None => mret ()
      | Some importPath =>
          parent_ ← read (λ st, parentPath st (nid importPath));
          when (isType ImportSpecifier (Some importPath))
            (if bool_decide (length (from_option (getList "specifiers") [] parent_) = 1)
             then from_option (remove by_) (mret ()) parent_
             else remove by_ importPath);;
          when (isType ObjectProperty (Some importPath))
            (if bool_decide (length (from_option (getList "properties") [] parent_) = 1)
             then removeVariableDeclaration by_ importPath
             else remove by_ importPath);;
          when (isType Identifier (Some importPath))
            (removeVariableDeclaration by_ importPath)
      end
  end.

(** ** The static-result injectors *)

Definition isUseStaticQuery (st : State) (path_ : Node) : bool :=
  let callee := get "callee" path_ in
  (isType MemberExpression callee
   && bool_decide (nameOf (callee ≫= get "property") = Some "useStaticQuery")
   && referencesImport st (callee ≫= get "object") "gatsby" (Some ""))
  || (bool_decide (nameOf callee = Some "useStaticQuery")
      && referencesImport st callee "gatsby" (Some "")).

(** [[`production`, `test`].includes(process.env.NODE_ENV || ``)]. *)
Definition productionLike (env : Env) : bool :=
  bool_decide (default "" (NODE_ENV env) ∈ ["production"; "test"]).

Definition leaf (i : NodeId) (t : NodeType) (k : string) (nm val : option string)
    (sc : ScopeId) : Node :=
  mkNode i t k nm val None None sc [].

Definition branch (i : NodeId) (t : NodeType) (k : string) (sc : ScopeId)
    (ks : list Node) : Node :=
  mkNode i t k None None None None sc ks.

(** The module the result is imported from: relative to the directory of
    the file when the file has a name, else the short path. *)
Definition resultSource (env : Env) (queryHash : string) : string :=
  let shortResultPath := "public/static/d/" +:+ queryHash +:+ ".json" in
  let resultPath := nodePath_join (cwd env) shortResultPath in
  match filename env with
  | Some f => if bool_decide (f = "") then shortResultPath
              else nodePath_relative (nodePath_dir f) resultPath
  | None => shortResultPath
  end.

(** [t.importDeclaration([t.importDefaultSpecifier(identifier)],
    t.stringLiteral(...))] followed by [path.unshiftContainer(`body`, ...)];
    both injectors end with these lines, [identifier] being
    [t.identifier(`staticQueryData`)]. *)
Definition addImport (env : Env) (queryHash : string) (identifier : string) : M unit :=
  sc ← read (λ st, scope (tree st));
  d ← fresh; sp ← fresh; lo ← fresh; so ← fresh;
  unshiftContainer_body
    (branch d ImportDeclaration "body" sc
       [ branch sp ImportDefaultSpecifier "specifiers" sc
           [ leaf lo Identifier "local" (Some identifier) None sc ];
         leaf so StringLiteral "source" None (Some (resultSource env queryHash)) sc ]);;
  modify (addLog (EvInject d)).

Definition nestedJSXVistor (env : Env) (queryHash : string) (path2 : Node) : M unit :=
  when (bool_decide (type path2 = JSXIdentifier))
    (refs ← read (λ st, referencesImport st (Some path2) "gatsby" None);
     parent_ ← read (λ st, parentPath st (nid path2));
     when (productionLike env
           && bool_decide (name path2 = Some "StaticQuery")
           && refs
           && negb (isType JSXClosingElement parent_))
       (let identifier := "staticQueryData" in
        match parent_ with
        | Some pn =>
            if bool_decide (type pn = JSXOpeningElement) then
              a ← fresh; an ← fresh; ac ← fresh; ai ← fresh;
              attributes_push (nid pn)
                (branch a JSXAttribute "attributes" (scope path2)
                   [ leaf an JSXIdentifier "name" (Some "data") None (scope path2);
                     branch ac JSXExpressionContainer "value" (scope path2)
                       [ leaf ai Identifier "expression" (Some identifier) None
                           (scope path2) ] ])
            else throw (TypeError "Cannot read properties of undefined (reading 'push')")
        | None => throw (TypeError "Cannot read properties of null (reading 'attributes')")
        end;;
        addImport env queryHash identifier)).

Definition nestedHookVisitor (env : Env) (queryHash : string) (path2 : Node) : M unit :=
  when (bool_decide (type path2 = CallExpression))
    (isHook ← read (λ st, isUseStaticQuery st path2);
     when (productionLike env && isHook)
       (let identifier := "staticQueryData" in
        when (negb (isType MemberExpression (get "callee" path2)))
          (b ← read (λ st, getBinding st (scope path2) (Some "useStaticQuery"));
           match b with
           | None => throw (TypeError "Cannot read properties of undefined (reading 'path')")
           | Some binding =>
               importPath ← read (λ st, pathNode st (path binding));
               parent_ ← read (λ st, parentPath st (path binding));
               when (isType ImportSpecifier importPath)
                 (if bool_decide (length (from_option (getList "specifiers") [] parent_) = 1)
                  then from_option (remove ByHookInjector) (mret ()) parent_
                  else from_option (remove ByHookInjector) (mret ()) importPath)
           end);;
        o ← fresh; pr ← fresh;
        replaceWith (nid path2)
          (branch (nid path2) MemberExpression (key path2) (scope path2)
             [ leaf o Identifier "object" (Some identifier) None (scope path2);
               leaf pr Identifier "property" (Some "data") None (scope path2) ]);;
        addImport env queryHash identifier)).

(** ** The rewrite engine *)

(** [tagsToRemoveImportsFrom.add(tag)]: a [Set] of paths, so a path that is
    already a member is not added again. *)
Definition tagsToRemoveImportsFrom_add (tag : option Node) : M unit :=
  match tag with
  | Some t =>
      modify (λ st,
        if bool_decide (nid t ∈ nid <$> tagsToRemoveImportsFrom st) then st
        else addLog (EvEnqueue (nid t)) (setTags (tagsToRemoveImportsFrom st ++ [t]) st))
  | None => mret ()
  end.

Definition setImportForStaticQuery (env : Env) (templatePath : Node) : M unit :=
  r ← readE (λ st, getGraphQLTag st templatePath);
  match r with
  | EmptyTag => mret ()
  | GraphQLTag ast text hash isGlobal =>
      let queryHash := pretty hash in
      let tag := get "tag" templatePath in
      when (negb isGlobal) (tagsToRemoveImportsFrom_add tag);;
      replaceWith (nid templatePath)
        (leaf (nid templatePath) StringLiteral "" None (Some queryHash) 0);;
      up ← read (λ st, default [] (ancestors (nid templatePath) (tree st)));
      match head (filter (λ a, type a ∈ [Program; JSXOpeningElement]) up) with
      | None => throw (TypeError "Cannot read properties of null (reading 'traverse')")
      | Some parent_ =>
          traverse (nid parent_) (nestedJSXVistor env queryHash);;
          traverse (nid parent_) (nestedHookVisitor env queryHash)
      end
  end.

(** The visitor of both sweeps that look for a query: a tagged template is
    handed to [setImportForStaticQuery]. *)
Definition TaggedTemplateExpression_visitor (env : Env) (templatePath : Node) : M unit :=
  when (bool_decide (type templatePath = TaggedTemplateExpression))
    (setImportForStaticQuery env templatePath).

(** First sweep: [<StaticQuery query={...}>]. *)
Definition sweep_StaticQuery (env : Env) : M unit :=
  program ← read (λ st, nid (tree st));
  traverse program (λ jsxElementPath,
    when (bool_decide (type jsxElementPath = JSXElement))
      (when (bool_decide
               (nameOf (get "openingElement" jsxElementPath ≫= get "name")
                = Some "StaticQuery"))
         (traverse (nid jsxElementPath) (λ jsxPath,
            when (bool_decide (type jsxPath = JSXAttribute))
              (when (bool_decide (nameOf (get "name" jsxPath) = Some "query"))
                 (traverse (nid jsxPath) (λ p,
                    TaggedTemplateExpression_visitor env p;;
                    when (bool_decide (type p = Identifier))
                      (when (negb (bool_decide (name p = Some "graphql")))
                         (let varName := name p in
                          traverse program (λ varPath,
                            when (bool_decide (type varPath = VariableDeclarator))
                              (if bool_decide (nameOf (get "id" varPath) = varName)
                               then
                                 match get "init" varPath with
                                 | None =>
                                     throw (TypeError
                                       "Cannot read properties of null (reading 'type')")
                                 | Some init =>
                                     when (bool_decide (type init = TaggedTemplateExpression))
                                       (traverse (nid varPath)
                                          (TaggedTemplateExpression_visitor env))
                                 end
                               else mret ()))))))))))).

(** Second sweep: [useStaticQuery(...)]; [stack] is the room on the call
    stack at the call of [followVariableDeclarations]. *)
Definition sweep_useStaticQuery (env : Env) (stack : nat) : M unit :=
  program ← read (λ st, nid (tree st));
  traverse program (λ hookPath,
    when (bool_decide (type hookPath = CallExpression))
      (isHook ← read (λ st, isUseStaticQuery st hookPath);
       when isHook
         (match getList "arguments" hookPath with
          | [arg] =>
              when (bool_decide (type arg = Identifier))
                (binding ← read (λ st, getBinding st (scope hookPath) (name arg));
                 match binding with
                 | Some b =>
                     b' ← readE (λ st, followVariableDeclarations stack st (Some b));
                     traverse (path b') (TaggedTemplateExpression_visitor env)
                 | None => mret ()
                 end)
          | _ => mret ()
          end;;
          traverse (nid hookPath) (TaggedTemplateExpression_visitor env)))).

(** The visitor of the third sweep. *)
Definition TaggedTemplateExpression_remaining (path2 : Node) : M unit :=
  when (bool_decide (type path2 = TaggedTemplateExpression))
    (r ← readE (λ st, getGraphQLTag st path2);
     match r with
     | EmptyTag => mret ()
     | GraphQLTag ast text hash isGlobal =>
         let queryHash := pretty hash in
         let tag := get "tag" path2 in
         when (negb isGlobal) (tagsToRemoveImportsFrom_add tag);;
         replaceWith (nid path2)
           (leaf (nid path2) StringLiteral "" None (Some queryHash) 0)
     end).

(** Third sweep: every tagged template that is left. *)
Definition sweep_remaining : M unit :=
  program ← read (λ st, nid (tree st));
  traverse program TaggedTemplateExpression_remaining.

Definition sweeps (env : Env) (stack : nat) : M unit :=
  sweep_StaticQuery env;;
  sweep_useStaticQuery env stack;;
  sweep_remaining.

(** The [Program] visitor: the three sweeps, then
    [tagsToRemoveImportsFrom.forEach(removeImport)]. *)
Definition Program_visitor (env : Env) (stack : nat) : M unit :=
  sweeps env stack;;
  tags ← read tagsToRemoveImportsFrom;
  forEach removeImport tags.

End Plugin.

(** * Vocabulary of the properties *)

(** ** Trees and alias chains *)

(** Identities of a node and of everything below it. *)
Definition ids (n : Node) : list NodeId := nid n :: descendants n.

(** The step the resolver takes from a binding: [Some next] when the
    binding is declared as [x = y] with [y] a bare identifier ([next] being
    what [y] resolves to, if anything), [None] when it is where the chain
    ends. *)
Definition aliasTarget (st : State) (b : Binding) : option (option Binding) :=
  match pathNode st (path b) with
  | Some node =>
      if bool_decide (type node = VariableDeclarator)
         && isType Identifier (get "id" node)
         && isType Identifier (get "init" node)
      then Some (getBinding st (scope node) (nameOf (get "init" node)))
      else None
  | None => None
  end.

(** The chain of aliases that starts at a binding ends, after [n] further
    calls of the resolver, with [r]: at a binding that is no alias, or at a
    name that nothing binds, on which the next call throws. *)
Inductive chainEnds (st : State) : Binding → nat → Error + Binding → Prop :=
| chain_end b :
    aliasTarget st b = None → chainEnds st b 0 (inr b)
| chain_unbound b :
    aliasTarget st b = Some None →
    chainEnds st b 1 (inl (TypeError "Cannot read properties of undefined (reading 'path')"))
| chain_step b b' n r :
    aliasTarget st b = Some (Some b') → chainEnds st b' n r → chainEnds st b (S n) r.

(** The recursion is bounded: some room on the call stack is enough for the
    call, which then ends otherwise than by exhausting the stack. *)
Definition boundedRecursion (st : State) (binding : option Binding) : Prop :=
  ∃ depth, ∀ stack, depth ≤ stack →
    followVariableDeclarations stack st binding ≠ inl stackOverflow.

(** ** What a computation may do to the state *)

(** [holds R m]: whenever [m] returns, the state it leaves is related by [R]
    to the state it started from. *)

Definition holds {A} (R : State → State → Prop) (m : M A) : Prop :=
  ∀ st a st', m st = Return a st' → R st st'.

(** The relations of interest look at the log and at the set of tags only.
    [Injecting R]: the steps of the two injectors respect [R];
    [Sweeping R]: so does the enqueueing of a tag. *)
Class Injecting (R : State → State → Prop) := {
  injecting_preorder :: PreOrder R;
  injecting_fresh : holds R fresh;
  injecting_replaceWith i n : holds R (replaceWith i n);
  injecting_unshift n : holds R (unshiftContainer_body n);
  injecting_push p n : holds R (attributes_push p n);
  injecting_remove n : holds R (remove ByHookInjector n);
  injecting_log d : holds R (modify (addLog (EvInject d))) }.

Class Sweeping (R : State → State → Prop) := {
  sweeping_injecting :: Injecting R;
  sweeping_add tag : holds R (tagsToRemoveImportsFrom_add tag) }.

(** ** The log of a pass *)

(** What the sweeps may log: anything but a run of the Import Pruner and a
    removal it makes. *)
Definition sweepEvent (ev : Event) : Prop :=
  match ev with
  | EvPrune _ | EvRemove (ByImportPruner _) _ => False
  | _ => True
  end.



(** The log grows at its end, by events that satisfy [ok]. *)
Definition logs (ok : Event → Prop) (st st' : State) : Prop :=
  ∃ l, log st' = log st ++ l ∧ Forall ok l.

(** The set of tags is as it was. *)
Definition sameTags (st st' : State) : Prop :=
  tagsToRemoveImportsFrom st' = tagsToRemoveImportsFrom st.

(** The set of tags holds no path twice. *)
Definition distinctTags (st st' : State) : Prop :=
  NoDup (nid <$> tagsToRemoveImportsFrom st) → NoDup (nid <$> tagsToRemoveImportsFrom st').


(** ** Names in the file *)


(** Some scope of the file binds the name. *)
Definition bound (st : State) (nm : string) : Prop :=
  ∃ s sc b, scopes st !! s = Some sc ∧ bindings sc !! nm = Some b.

(** The local name of the default import at the head of the program. *)
Definition leadingImportLocal (st : State) : option string :=
  nameOf ((head (kids (tree st)) ≫= get "specifiers") ≫= get "local").

(** The identifier in the expression slot of the last attribute of an
    element. *)
Definition lastAttributeIdentifier (opening : Node) : option string :=
  nameOf ((last (getList "attributes" opening) ≫= get "value") ≫= get "expression").

(** ** Import shapes *)

(** The first test of [getTagImport]: the binding is an import from
    [gatsby]. *)
Definition importsGatsby (st : State) (b : Binding) : bool :=
  bool_decide (kind b = "module")
  && isType ImportDeclaration (parentPath st (path b))
  && bool_decide ((parentPath st (path b) ≫= get "source") ≫= value = Some "gatsby").

(** The second test of [getTagImport]: the declarator is initialised with
    [require('gatsby')]. *)
Definition requiresGatsby (declarator : Node) : Prop :=
  type declarator = VariableDeclarator
  ∧ ∃ init arg,
      get "init" declarator = Some init
      ∧ type init = CallExpression
      ∧ isIdentifierNamed "require" (get "callee" init) = true
      ∧ head (getList "arguments" init) = Some arg
      ∧ value arg = Some "gatsby".

(** [properties.find(path => path.get(`value`).node.name === name)], as
    [getTagImport] runs it on the properties of an object pattern. *)
Definition findProperty (nm : option string) : list Node → Error + option Node :=
  fix find (ps : list Node) : Error + option Node :=
    match ps with
    | [] => inr None
    | p :: ps' =>
        match get "value" p with
        | None => inl (TypeError "Cannot read properties of undefined (reading 'name')")
        | Some v => if bool_decide (name v = nm) then inr (Some p) else find ps'
        end
    end.

(** The properties [find] passes over: each has a value of another name. *)
Definition passedOver (nm : option string) (ps : list Node) : Prop :=
  Forall (λ q, ∃ w, get "value" q = Some w ∧ name w ≠ nm) ps.

(** The node [isGraphqlTag] and [removeImport] look up: the tag, or the
    object of a tag that is a property access. *)
Definition tagBase (tag : Node) : option Node :=
  if isType MemberExpression (Some tag) then get "object" tag else Some tag.

(** The module the default import at the head of the program comes from. *)
Definition leadingImportSource (st : State) : option string :=
  (head (kids (tree st)) ≫= get "source") ≫= value.

(** ** Passes that change nothing *)

(** [untouched m st]: run from [st], [m] returns or throws with the very
    state [st]. *)
Definition untouched {A} (m : M A) (st : State) : Prop :=
  match m st with
  | Return _ st' | Throw _ st' => st' = st
  end.


(** No tagged template of the tree is a query: [getGraphQLTag] answers the
    empty record for each. *)
Definition noQueries `{Externals} (st : State) : bool :=
  forallb (λ i, match pathNode st i with
                | Some n =>
                    if bool_decide (type n = TaggedTemplateExpression)
                    then match getGraphQLTag st n with
                         | inr EmptyTag => true
                         | _ => false
                         end
                    else true
                | None => true
                end)
    (ids (tree st)).

(** ** Sweeps in which no injector fires *)

(** What such sweeps log: tags enqueued and templates replaced. *)
Definition substitutionEvent (ev : Event) : Prop :=
  match ev with
  | EvEnqueue _ | EvReplace _ => True
  | _ => False
  end.

(** No binding was dropped and no node was created. *)
Definition sameScopes (st st' : State) : Prop :=
  scopes st' = scopes st ∧ nextId st' = nextId st.

(** [Substituting R]: replacing a node and enqueueing a tag respect [R]. *)
Class Substituting (R : State → State → Prop) := {
  substituting_preorder :: PreOrder R;
  substituting_replaceWith i n : holds R (replaceWith i n);
  substituting_add tag : holds R (tagsToRemoveImportsFrom_add tag) }.

(** ** The program scope *)

(** The scope [s] is there and has no parent. *)
Definition rooted (sc : gmap ScopeId Scope) (s : ScopeId) : Prop :=
  ∃ r, sc !! s = Some r ∧ parent r = None.

(** The scope [s] is there, has no parent and does not bind [nm]. *)
Definition unboundAt (sc : gmap ScopeId Scope) (s : ScopeId) (nm : string) : Prop :=
  ∃ r, sc !! s = Some r ∧ parent r = None ∧ bindings r !! nm = None.

(** ** Sample programs *)

Module Sample.

(** Stand-ins for the collaborators, for running the model: the digest is
    the length of the text plus the seed, and the parser knows the texts of
    the samples.  Like [graphql.parse], it rejects the empty text: a document
    has at least one definition. *)
Definition demo_parse (text : string) : Error + Document :=
  if bool_decide (text = "") then inl (ParserError "Syntax Error: Unexpected <EOF>.")
  else if bool_decide (text = "{ a }") then inr {| definitions := ["query"] |}
  else if bool_decide (text = "{ site { name } }") then inr {| definitions := ["query"] |}
  else inl (ParserError "Syntax Error: Unexpected Name").

#[global] Instance demo : Externals := {|
  murmurhash text seed := (N.of_nat (String.length text) + seed)%N;
  graphql_parse := demo_parse;
  nodePath_join a b := a +:+ "/" +:+ b;
  nodePath_relative from to := "../" +:+ to;
  nodePath_dir f := f |}.

Definition production : Env :=
  {| NODE_ENV := Some "production"; filename := None; cwd := "/site" |}.

Definition development : Env :=
  {| NODE_ENV := Some "development"; filename := None; cwd := "/site" |}.

Definition ident (i : NodeId) (k nm : string) : Node :=
  leaf i Identifier k (Some nm) None 0.

Definition str (i : NodeId) (k v : string) : Node :=
  leaf i StringLiteral k None (Some v) 0.

Definition at_ (l c : nat) : Position := {| line := l; column := c |}.

Definition quasi_ (i : NodeId) (text : string) (l : option SourceLocation) : Node :=
  mkNode i TemplateElement "quasis" None None (Some text) l 0 [].

(** [tag`text`], a template of one segment. *)
Definition template (i : NodeId) (k : string) (tag : Node) (text : string) : Node :=
  branch i TaggedTemplateExpression k 0
    [ tag;
      branch (i + 1) TemplateLiteral "quasi" 0
        [ quasi_ (i + 2) text
            (Some {| loc_start := at_ 1 0; loc_end := at_ 1 (String.length text) |}) ] ].

(** [import { imported as local } from 'source'], one specifier per pair. *)
Definition importSpecifier (i : NodeId) (imported local_ : string) : Node :=
  branch i ImportSpecifier "specifiers" 0
    [ ident (i + 1) "imported" imported; ident (i + 2) "local" local_ ].

Definition importDeclaration (i : NodeId) (specifiers : list Node) (source : string) : Node :=
  branch i ImportDeclaration "body" 0 (specifiers ++ [ str (i + 1) "source" source ]).

(** [const x = init]. *)
Definition constDeclaration (i : NodeId) (x : string) (init : Node) : Node :=
  branch i VariableDeclaration "body" 0
    [ branch (i + 1) VariableDeclarator "declarations" 0 [ ident (i + 2) "id" x; init ] ].

Definition program (body : list Node) : Node := branch 0 Program "" 0 body.

Definition moduleBinding (i : NodeId) : Binding := {| kind := "module"; path := i |}.

Definition constBinding (i : NodeId) : Binding := {| kind := "const"; path := i |}.

Definition state (t : Node) (bs : list (string * Binding)) (free : list string) : State :=
  {| tree := t;
     scopes := {[ 0 := {| parent := None; bindings := list_to_map bs |} ]};
     globals := list_to_set free;
     nextId := 1000;
     tagsToRemoveImportsFrom := [];
     log := [] |}.

(** [callee(arguments)]. *)
Definition call (i : NodeId) (k : string) (callee : Node) (arguments : list Node) : Node :=
  branch i CallExpression k 0 (callee :: arguments).

(** [object.property]. *)
Definition member (i : NodeId) (k : string) (object property : string) : Node :=
  branch i MemberExpression k 0
    [ ident (i + 1) "object" object; ident (i + 2) "property" property ].






(** [import { graphql } from 'gatsby'] and the tag [graphql.foo]. *)
Definition named_member_tag : Node := member 30 "tag" "graphql" "foo".

Definition named_member : State :=
  state (program [ importDeclaration 10 [ importSpecifier 12 "graphql" "graphql" ] "gatsby";
                   constDeclaration 20 "query"
                     (branch 29 TaggedTemplateExpression "init" 0
                        [ named_member_tag;
                          branch 33 TemplateLiteral "quasi" 0 [ quasi_ 34 "{ a }" None ] ]) ])
    [ ("graphql", moduleBinding 12); ("query", constBinding 21) ] [].

(** [let x = y; let y = x]. *)
Definition cyclic : State :=
  state (program [ constDeclaration 10 "x" (ident 13 "init" "y");
                   constDeclaration 20 "y" (ident 23 "init" "x") ])
    [ ("x", constBinding 11); ("y", constBinding 21) ] [].

(** [const a = "x"; const b = a; const c = b]. *)
Definition alias_chain : State :=
  state (program [ constDeclaration 10 "a" (str 13 "init" "x");
                   constDeclaration 20 "b" (ident 23 "init" "a");
                   constDeclaration 30 "c" (ident 33 "init" "b") ])
    [ ("a", constBinding 11); ("b", constBinding 21); ("c", constBinding 31) ] [].


(** [import { useStaticQuery, graphql } from 'gatsby'] and
    [const d = useStaticQuery(graphql`{ a }`)]. *)
Definition hook_query : State :=
  state (program [ importDeclaration 10 [ importSpecifier 12 "useStaticQuery" "useStaticQuery";
                                          importSpecifier 15 "graphql" "graphql" ] "gatsby";
                   constDeclaration 20 "d"
                     (call 30 "init" (ident 31 "callee" "useStaticQuery")
                        [ template 40 "arguments" (ident 39 "tag" "graphql") "{ a }" ]) ])
    [ ("useStaticQuery", moduleBinding 12); ("graphql", moduleBinding 15);
      ("d", constBinding 21) ] [].

(** [<StaticQuery query={graphql`{ site { name } }`} />] in a file that
    imports [StaticQuery] and [graphql] from gatsby and already declares
    [const staticQueryData = "mine"]. *)
Definition StaticQuery_identifier : Node := leaf 52 JSXIdentifier "name" (Some "StaticQuery") None 0.

Definition attribute_query : State :=
  state (program [ importDeclaration 10 [ importSpecifier 12 "StaticQuery" "StaticQuery";
                                          importSpecifier 15 "graphql" "graphql" ] "gatsby";
                   constDeclaration 20 "staticQueryData" (str 23 "init" "mine");
                   branch 50 JSXElement "body" 0
                     [ branch 51 JSXOpeningElement "openingElement" 0
                         [ StaticQuery_identifier;
                           branch 53 JSXAttribute "attributes" 0
                             [ leaf 54 JSXIdentifier "name" (Some "query") None 0;
                               branch 55 JSXExpressionContainer "value" 0
                                 [ template 60 "expression" (ident 59 "tag" "graphql")
                                     "{ site { name } }" ] ] ] ] ])
    [ ("StaticQuery", moduleBinding 12); ("graphql", moduleBinding 15);
      ("staticQueryData", constBinding 21) ] [].

(** [import { graphql, Link } from 'gatsby'], [import { graphql } from
    'gatsby'] and [import Gatsby, { graphql } from 'gatsby'], each with the
    tag [graphql] of a template that was replaced. *)
Definition graphql_tag : Node := ident 39 "tag" "graphql".

Definition two_specifiers : State :=
  state (program [ importDeclaration 10 [ importSpecifier 12 "graphql" "graphql";
                                          importSpecifier 15 "Link" "Link" ] "gatsby" ])
    [ ("graphql", moduleBinding 12); ("Link", moduleBinding 15) ] [].

Definition one_specifier : State :=
  state (program [ importDeclaration 10 [ importSpecifier 12 "graphql" "graphql" ] "gatsby" ])
    [ ("graphql", moduleBinding 12) ] [].

Definition default_and_named : State :=
  state (program [ importDeclaration 10
                     [ branch 12 ImportDefaultSpecifier "specifiers" 0 [ ident 13 "local" "Gatsby" ];
                       importSpecifier 15 "graphql" "graphql" ] "gatsby" ])
    [ ("Gatsby", moduleBinding 12); ("graphql", moduleBinding 15) ] [].

(** [const { graphql, navigate } = require('gatsby')] and
    [const { graphql } = require('gatsby')]. *)
Definition objectProperty (i : NodeId) (x : string) : Node :=
  branch i ObjectProperty "properties" 0 [ ident (i + 1) "key" x; ident (i + 2) "value" x ].

Definition requireDeclaration (properties : list Node) : Node :=
  branch 10 VariableDeclaration "body" 0
    [ branch 11 VariableDeclarator "declarations" 0
        [ branch 12 ObjectPattern "id" 0 properties;
          call 13 "init" (ident 14 "callee" "require") [ str 15 "arguments" "gatsby" ] ] ].

Definition require_two : State :=
  state (program [ requireDeclaration [ objectProperty 20 "graphql"; objectProperty 25 "navigate" ] ])
    [ ("graphql", constBinding 11); ("navigate", constBinding 11) ] [ "require" ].

Definition require_one : State :=
  state (program [ requireDeclaration [ objectProperty 20 "graphql" ] ])
    [ ("graphql", constBinding 11) ] [ "require" ].



(** [import { useStaticQuery } from 'gatsby'], [const q = fallbackQuery]
    with [fallbackQuery] declared nowhere, and [useStaticQuery(q)]. *)
Definition dangling_alias : State :=
  state (program [ importDeclaration 10 [ importSpecifier 12 "useStaticQuery" "useStaticQuery" ]
                     "gatsby";
                   constDeclaration 20 "q" (ident 23 "init" "fallbackQuery");
                   constDeclaration 30 "d"
                     (call 40 "init" (ident 41 "callee" "useStaticQuery")
                        [ ident 42 "arguments" "q" ]) ])
    [ ("useStaticQuery", moduleBinding 12); ("q", constBinding 21); ("d", constBinding 31) ]
    [ "fallbackQuery" ].

(** [import * as Gatsby from 'gatsby'] and the tag [Gatsby.graphql]. *)
Definition namespace_tag : Node := member 30 "tag" "Gatsby" "graphql".

Definition namespaceSpecifier (i : NodeId) (local_ : string) : Node :=
  branch i ImportNamespaceSpecifier "specifiers" 0 [ ident (i + 1) "local" local_ ].

Definition namespace_import : State :=
  state (program [ importDeclaration 10 [ namespaceSpecifier 12 "Gatsby" ] "gatsby";
                   constDeclaration 20 "query"
                     (branch 29 TaggedTemplateExpression "init" 0
                        [ namespace_tag;
                          branch 33 TemplateLiteral "quasi" 0 [ quasi_ 34 "{ a }" None ] ]) ])
    [ ("Gatsby", moduleBinding 12); ("query", constBinding 21) ] [].

(** [const gatsby = require('gatsby')] and the tag [gatsby.graphql]. *)
Definition required_tag : Node := member 30 "tag" "gatsby" "graphql".

Definition requireCall (i : NodeId) (source : string) : Node :=
  call i "init" (ident (i + 1) "callee" "require") [ str (i + 2) "arguments" source ].

Definition required_module : State :=
  state (program [ constDeclaration 10 "gatsby" (requireCall 13 "gatsby");
                   constDeclaration 20 "query"
                     (branch 29 TaggedTemplateExpression "init" 0
                        [ required_tag;
                          branch 33 TemplateLiteral "quasi" 0 [ quasi_ 34 "{ a }" None ] ]) ])
    [ ("gatsby", constBinding 11); ("query", constBinding 21) ] [ "require" ].

(** [const { navigate, graphql: gql, ...rest } = require('gatsby')], with
    the tags [gql] and [rest]. *)
Definition renamedProperty (i : NodeId) (k x : string) : Node :=
  branch i ObjectProperty "properties" 0 [ ident (i + 1) "key" k; ident (i + 2) "value" x ].

Definition restElement (i : NodeId) (x : string) : Node :=
  branch i RestElement "properties" 0 [ ident (i + 1) "argument" x ].

(** The declarator of [requireDeclaration]. *)
Definition requireDeclarator (properties : list Node) : Node :=
  branch 11 VariableDeclarator "declarations" 0
    [ branch 12 ObjectPattern "id" 0 properties;
      call 13 "init" (ident 14 "callee" "require") [ str 15 "arguments" "gatsby" ] ].

Definition gql_tag : Node := ident 39 "tag" "gql".

Definition rest_tag : Node := ident 49 "tag" "rest".

Definition renamed_pattern : list Node :=
  [ objectProperty 20 "navigate"; renamedProperty 25 "graphql" "gql"; restElement 30 "rest" ].

Definition require_renamed : State :=
  state (program [ requireDeclaration renamed_pattern ])
    [ ("navigate", constBinding 11); ("gql", constBinding 11); ("rest", constBinding 11) ]
    [ "require" ].

(** [graphql`{ a `] with no import of [graphql]: the text does not parse. *)
Definition broken_query : Node := template 20 "init" (ident 19 "tag" "graphql") "{ a ".

Definition broken_query_state : State :=
  state (program [ constDeclaration 10 "query" broken_query ])
    [ ("query", constBinding 11) ] [ "graphql" ].

(** [import { graphql } from 'gatsby'] and [const query = graphql`{ a }`]. *)
Definition imported_template : Node := template 40 "init" (ident 39 "tag" "graphql") "{ a }".

Definition imported_query : State :=
  state (program [ importDeclaration 10 [ importSpecifier 12 "graphql" "graphql" ] "gatsby";
                   constDeclaration 20 "query" imported_template ])
    [ ("graphql", moduleBinding 12); ("query", constBinding 21) ] [].

(** [import { useStaticQuery } from 'gatsby'], [import { css } from
    'styled'], [const a = css`{ a }`] and [const b = useStaticQuery(a)]: a
    hook call, an alias and a template, but no query. *)
Definition plain_module : State :=
  state (program [ importDeclaration 10 [ importSpecifier 12 "useStaticQuery" "useStaticQuery" ]
                     "gatsby";
                   importDeclaration 15 [ importSpecifier 17 "css" "css" ] "styled";
                   constDeclaration 20 "a" (template 24 "init" (ident 23 "tag" "css") "{ a }");
                   constDeclaration 30 "b"
                     (call 33 "init" (ident 34 "callee" "useStaticQuery")
                        [ ident 35 "arguments" "a" ]) ])
    [ ("useStaticQuery", moduleBinding 12); ("css", moduleBinding 17);
      ("a", constBinding 21); ("b", constBinding 31) ] [].

(** [import * as Gatsby from 'gatsby'] and
    [const d = Gatsby.useStaticQuery("5")], the query already replaced by
    its hash. *)
Definition namespace_hook_call : Node :=
  call 30 "init" (member 31 "callee" "Gatsby" "useStaticQuery") [ str 40 "arguments" "5" ].

Definition namespace_hook : State :=
  state (program [ importDeclaration 10 [ namespaceSpecifier 12 "Gatsby" ] "gatsby";
                   constDeclaration 20 "d" namespace_hook_call ])
    [ ("Gatsby", moduleBinding 12); ("d", constBinding 21) ] [].





(** The call of [hook_query]. *)
Definition hook_call : Node :=
  call 30 "init" (ident 31 "callee" "useStaticQuery")
    [ template 40 "arguments" (ident 39 "tag" "graphql") "{ a }" ].

End Sample.

(** * Properties *)

(** ** Running the monad *)

Ltac mrun :=
  unfold mbind, mret, M_bind, M_ret, readE, read, liftE, throw, modify, when in *;
  cbn beta iota in *.

(** ** The tree operations *)

Section Tree.

Lemma Node_ind' (P : Node → Prop) :
  (∀ n, Forall P (kids n) → P n) → ∀ n, P n.
Proof.
  intros IH. fix REC 1. intros [i t k nm v r l s ks]. apply IH. simpl.
  induction ks as [|c ks IHks]; constructor; [apply REC | apply IHks].
Qed.

Lemma findNode_eq i n :
  findNode i n = if decide (nid n = i) then Some n else firstSome (findNode i) (kids n).
Proof. now destruct n. Qed.

Lemma ancestors_eq i n :
  ancestors i n =
    if decide (nid n = i) then Some []
    else firstSome (λ c, (λ up, up ++ [n]) <$> ancestors i c) (kids n).
Proof. now destruct n. Qed.

Lemma descendants_eq n : descendants n = flat_map ids (kids n).
Proof. now destruct n. Qed.

Lemma alterNode_eq f i n :
  alterNode f i n = setKids (alterKids f i (alterNode f i) (kids n)) n.
Proof. now destruct n. Qed.

Lemma setKids_kids n : setKids (kids n) n = n.
Proof. now destruct n. Qed.

Lemma firstSome_None {A B} (f : A → option B) l :
  firstSome f l = None ↔ Forall (λ a, f a = None) l.
Proof.
  induction l as [|a l IH]; simpl; [by split; [constructor|]|].
  destruct (f a) eqn:Ha.
  - split; [done|]. intros Hall. inversion Hall; congruence.
  - rewrite IH. split; [by constructor|]. now inversion 1.
Qed.

Lemma firstSome_Some {A B} (f : A → option B) l y :
  firstSome f l = Some y →
  ∃ l1 c l2, l = l1 ++ c :: l2 ∧ f c = Some y ∧ Forall (λ a, f a = None) l1.
Proof.
  induction l as [|a l IH]; simpl; [done|].
  destruct (f a) eqn:Ha.
  - intros [= ->]. exists [], a, l. by repeat split.
  - intros (l1 & c & l2 & -> & Hc & Hl1)%IH.
    exists (a :: l1), c, l2. repeat split; [done|]. by constructor.
Qed.

Lemma firstSome_app_None {A B} (f : A → option B) l1 l2 :
  Forall (λ a, f a = None) l1 → firstSome f (l1 ++ l2) = firstSome f l2.
Proof.
  induction 1 as [|a l1 Ha _ IH]; simpl; [done|]. now rewrite Ha.
Qed.

Lemma elem_of_flat_map_ids x ks : x ∈ flat_map ids ks ↔ ∃ c, c ∈ ks ∧ x ∈ ids c.
Proof.
  rewrite list_elem_of_In, in_flat_map.
  split; intros (c & Hc & Hx); exists c; split;
    first [by apply list_elem_of_In | by apply list_elem_of_In in Hc
          | by apply list_elem_of_In in Hx].
Qed.

Lemma findNode_None x : ∀ t, findNode x t = None ↔ x ∉ ids t.
Proof.
  induction t as [t IH] using Node_ind'.
  rewrite findNode_eq. unfold ids. rewrite descendants_eq.
  destruct (decide (nid t = x)) as [<-|Hne].
  - split; [done|]. intros Hnot. exfalso. apply Hnot. left.
  - rewrite firstSome_None, not_elem_of_cons, elem_of_flat_map_ids.
    rewrite Forall_forall in IH. rewrite Forall_forall. split.
    + intros Hall. split; [done|]. intros (c & Hc & Hin).
      apply (IH c Hc) in Hin; [done|]. by apply Hall.
    + intros [_ Hnot] c Hc. apply IH; [done|]. intros Hin. apply Hnot.
      by exists c.
Qed.

Lemma findNode_nid x : ∀ t r, findNode x t = Some r → nid r = x.
Proof.
  induction t as [t IH] using Node_ind'. intros r.
  rewrite findNode_eq. destruct (decide (nid t = x)) as [Heq|Hne]; [by intros [= <-]|].
  intros (l1 & c & l2 & Hks & Hc & _)%firstSome_Some.
  rewrite Forall_forall in IH. apply (IH c); [|done].
  rewrite Hks. apply elem_of_app. right. left.
Qed.

Lemma ancestors_None x : ∀ t, ancestors x t = None ↔ x ∉ ids t.
Proof.
  induction t as [t IH] using Node_ind'.
  rewrite ancestors_eq. unfold ids. rewrite descendants_eq.
  destruct (decide (nid t = x)) as [<-|Hne].
  - split; [done|]. intros Hnot. exfalso. apply Hnot. left.
  - rewrite firstSome_None, not_elem_of_cons, elem_of_flat_map_ids.
    rewrite Forall_forall in IH. rewrite Forall_forall. split.
    + intros Hall. split; [done|]. intros (c & Hc & Hin).
      apply (IH c Hc) in Hin; [done|]. specialize (Hall c Hc).
      by destruct (ancestors x c).
    + intros [_ Hnot] c Hc.
      assert (ancestors x c = None) as ->; [|done].
      apply IH; [done|]. intros Hin. apply Hnot.
      by exists c.
Qed.

Lemma ancestors_nil x t : ancestors x t = Some [] → nid t = x.
Proof.
  rewrite ancestors_eq. destruct (decide (nid t = x)); [done|].
  intros (l1 & c & l2 & _ & Hc & _)%firstSome_Some.
  destruct (ancestors x c) as [up|]; [|done]. simpl in Hc.
  injection Hc as Hc. now destruct up.
Qed.

(** A tree that does not hold [x] is not changed by an edit at [x]. *)
Lemma alterNode_id f x : ∀ t, x ∉ ids t → alterNode f x t = t.
Proof.
  induction t as [t IH] using Node_ind'. intros Hnot.
  rewrite alterNode_eq. transitivity (setKids (kids t) t); [|apply setKids_kids]. f_equal.
  unfold ids in Hnot. rewrite descendants_eq in Hnot.
  apply not_elem_of_cons in Hnot as [_ Hnot].
  induction (kids t) as [|c ks IHks]; simpl; [done|].
  cbn [flat_map] in Hnot. apply not_elem_of_app in Hnot as [Hc Hks].
  inversion IH as [|? ? IHc IHrest]; subst.
  destruct (decide (nid c = x)) as [<-|Hne].
  - exfalso. apply Hc. left.
  - rewrite IHc by done. f_equal. by apply IHks.
Qed.

(** The node under an edited path is what the edit made of it. *)
Lemma findNode_alterNode f x :
  (∀ c, nid c = x → ∃ c', f c = Some c' ∧ nid c' = x) →
  ∀ t c, nid t ≠ x → findNode x t = Some c → findNode x (alterNode f x t) = f c.
Proof.
  intros Hf. induction t as [t IH] using Node_ind'. intros c Hroot.
  rewrite alterNode_eq, !findNode_eq. simpl.
  destruct (decide (nid t = x)); [done|].
  induction (kids t) as [|k ks IHks]; simpl; [done|].
  inversion IH as [|? ? IHk IHrest]; subst.
  destruct (decide (nid k = x)) as [Hk|Hk].
  - rewrite findNode_eq. destruct (decide (nid k = x)); [|done]. intros [= <-].
    destruct (Hf k Hk) as (c' & -> & Hc'). simpl.
    rewrite findNode_eq. now destruct (decide (nid c' = x)).
  - simpl. destruct (findNode x k) as [r|] eqn:Hfind.
    + intros [= <-]. rewrite (IHk r Hk eq_refl).
      destruct (Hf r (findNode_nid _ _ _ Hfind)) as (c' & Hc' & _). now rewrite Hc'.
    + apply findNode_None in Hfind. rewrite alterNode_id by done.
      apply findNode_None in Hfind. rewrite Hfind. by apply IHks.
Qed.

(** After a removal the path is gone. *)
Lemma findNode_removed x : ∀ t, nid t ≠ x → findNode x (alterNode (λ _, None) x t) = None.
Proof.
  induction t as [t IH] using Node_ind'. intros Hroot.
  rewrite alterNode_eq, findNode_eq. simpl.
  destruct (decide (nid t = x)); [done|].
  induction (kids t) as [|k ks IHks]; simpl; [done|].
  inversion IH as [|? ? IHk IHrest]; subst.
  destruct (decide (nid k = x)) as [Hk|Hk]; [by apply IHks|].
  simpl. rewrite (IHk Hk). by apply IHks.
Qed.

Lemma alterNode_nid f x t : nid (alterNode f x t) = nid t.
Proof. now rewrite alterNode_eq. Qed.

End Tree.

Section Removal.

Lemma NoDup_ids_kids t :
  NoDup (ids t) → (nid t ∉ flat_map ids (kids t)) ∧ NoDup (flat_map ids (kids t)).
Proof. unfold ids. rewrite descendants_eq. apply NoDup_cons. Qed.

Lemma NoDup_flat_map_ids_split l1 c l2 :
  NoDup (flat_map ids (l1 ++ c :: l2)) →
  NoDup (ids c)
  ∧ ∀ x, x ∈ ids c → (x ∉ flat_map ids l1) ∧ (x ∉ flat_map ids l2).
Proof.
  rewrite flat_map_app. cbn [flat_map].
  intros (_ & Hl1 & (Hc & Hl2 & _)%NoDup_app)%NoDup_app.
  split; [done|]. intros x Hx. split; [|by apply Hl2].
  intros Hin. apply (Hl1 x Hin). apply elem_of_app. by left.
Qed.

Lemma nid_in_ids t : nid t ∈ ids t.
Proof. left. Qed.

Lemma alterKids_app f x rec l1 l2 :
  alterKids f x rec (l1 ++ l2) = alterKids f x rec l1 ++ alterKids f x rec l2.
Proof.
  induction l1 as [|c l1 IH]; simpl; [done|].
  destruct (decide (nid c = x)); [destruct (f c)|]; simpl; by rewrite IH.
Qed.

Lemma alterKids_id f x l :
  Forall (λ a, x ∉ ids a) l → alterKids f x (alterNode f x) l = l.
Proof.
  induction 1 as [|c l Hc _ IH]; simpl; [done|].
  destruct (decide (nid c = x)) as [<-|Hne]; [by destruct Hc; left|].
  by rewrite alterNode_id, IH.
Qed.

Lemma alterKids_remove x l :
  (∀ k, k ∈ l → nid k ≠ x → x ∉ ids k) →
  alterKids (λ _, None) x (alterNode (λ _, None) x) l = filter (λ k, nid k ≠ x) l.
Proof.
  induction l as [|c l IH]; intros Hl; simpl; [done|].
  rewrite filter_cons.
  destruct (decide (nid c = x)) as [Heq|Hne].
  - destruct (decide (nid c ≠ x)); [done|]. apply IH. intros k Hk. apply Hl. by right.
  - destruct (decide (nid c ≠ x)); [|done].
    rewrite alterNode_id by (apply Hl; [left|done]). f_equal.
    apply IH. intros k Hk. apply Hl. by right.
Qed.

(** Every node on the way up from a path is found under its identity. *)
Lemma ancestors_found x : ∀ t up,
  NoDup (ids t) → ancestors x t = Some up →
  ∀ a, a ∈ up → findNode (nid a) t = Some a.
Proof.
  induction t as [t IH] using Node_ind'. intros up Hnd.
  rewrite ancestors_eq. destruct (decide (nid t = x)); [by intros [= <-] a Ha; inversion Ha|].
  intros (l1 & c & l2 & Hks & Hc & Hl1)%firstSome_Some a Ha.
  destruct (ancestors x c) as [r|] eqn:Hr; [|done]. injection Hc as <-.
  apply elem_of_app in Ha as [Ha|Ha].
  - destruct (NoDup_ids_kids t Hnd) as [Hroot Hkids]. rewrite Hks in Hroot, Hkids.
    destruct (NoDup_flat_map_ids_split _ _ _ Hkids) as [Hndc Hdisj].
    rewrite Forall_forall in IH.
    assert (Hcin : c ∈ kids t) by (rewrite Hks; apply elem_of_app; right; left).
    pose proof (IH c Hcin r Hndc Hr a Ha) as Hfind.
    assert (Hain : nid a ∈ ids c).
    { destruct (decide (nid a ∈ ids c)) as [|Hn]; [done|].
      apply findNode_None in Hn. congruence. }
    rewrite findNode_eq. destruct (decide (nid t = nid a)) as [Heq|_].
    { exfalso. apply Hroot. rewrite Heq. apply elem_of_flat_map_ids.
      exists c. split; [|done]. apply elem_of_app. right. left. }
    rewrite Hks, firstSome_app_None; [simpl; by rewrite Hfind|].
    apply Forall_forall. intros b Hb. apply findNode_None. intros Hin.
    apply (proj1 (Hdisj _ Hain)). apply elem_of_flat_map_ids. by exists b.
  - apply list_elem_of_singleton in Ha as ->. rewrite findNode_eq.
    by destruct (decide (nid t = nid t)).
Qed.

(** Removing a node leaves its parent in place, with one child less. *)
Lemma parent_after_removal x : ∀ t d up,
  NoDup (ids t) → ancestors x t = Some (d :: up) →
  NoDup (ids d)
  ∧ (∃ c, c ∈ kids d ∧ nid c = x)
  ∧ nid d ∈ ids t
  ∧ findNode (nid d) (alterNode (λ _, None) x t)
    = Some (setKids (filter (λ k, nid k ≠ x) (kids d)) d).
Proof.
  induction t as [t IH] using Node_ind'. intros d up Hnd.
  rewrite ancestors_eq. destruct (decide (nid t = x)) as [|Hroot]; [done|].
  intros (l1 & c & l2 & Hks & Hc & Hl1)%firstSome_Some.
  destruct (ancestors x c) as [r|] eqn:Hr; [|done]. injection Hc as Hc.
  destruct (NoDup_ids_kids t Hnd) as [Hrootnotin Hkids].
  assert (Hcin : c ∈ kids t) by (rewrite Hks; apply elem_of_app; right; left).
  pose proof Hkids as Hsplit. rewrite Hks in Hsplit.
  apply NoDup_flat_map_ids_split in Hsplit as [Hndc Hdisj].
  assert (Hl1x : Forall (λ a, x ∉ ids a) l1).
  { eapply Forall_impl; [exact Hl1|]. intros a Ha. apply ancestors_None.
    simpl in Ha. by destruct (ancestors x a). }
  destruct r as [|d' r'].
  - (* the node is a child of [t] itself *)
    injection Hc as <- <-. apply ancestors_nil in Hr.
    split; [done|]. split; [by exists c|]. split; [apply nid_in_ids|].
    rewrite alterNode_eq, findNode_eq. simpl.
    destruct (decide (nid t = nid t)); [|done]. do 2 f_equal.
    apply alterKids_remove. intros k Hk Hne Hin.
    rewrite Hks in Hk. apply elem_of_app in Hk as [Hk|Hk].
    + rewrite Forall_forall in Hl1x. by apply (Hl1x k).
    + apply elem_of_cons in Hk as [->|Hk]; [done|].
      assert (Hxc : x ∈ ids c) by (rewrite <-Hr; apply nid_in_ids).
      apply (proj2 (Hdisj _ Hxc)). apply elem_of_flat_map_ids. by exists k.
  - (* the node is further down, below the child [c] *)
    simpl in Hc. injection Hc as -> <-.
    rewrite Forall_forall in IH.
    destruct (IH c Hcin d r' Hndc Hr) as (Hndd & Hchild & Hdin & Hfind).
    split; [done|]. split; [done|]. split.
    { right. rewrite descendants_eq. apply elem_of_flat_map_ids. by exists c. }
    assert (Hcx : nid c ≠ x).
    { intros Heq. rewrite ancestors_eq in Hr. by destruct (decide (nid c = x)). }
    rewrite alterNode_eq, findNode_eq. simpl.
    destruct (decide (nid t = nid d)) as [Heq|_].
    { exfalso. apply Hrootnotin. rewrite Heq. apply elem_of_flat_map_ids. by exists c. }
    rewrite Hks, alterKids_app, alterKids_id by done.
    rewrite firstSome_app_None.
    + simpl. destruct (decide (nid c = x)); [done|]. simpl. by rewrite Hfind.
    + apply Forall_forall. intros b Hb. apply findNode_None. intros Hin.
      apply (proj1 (Hdisj _ Hdin)). apply elem_of_flat_map_ids. by exists b.
Qed.

Lemma alterNode_remove_twice x t :
  nid t ≠ x →
  alterNode (λ _, None) x (alterNode (λ _, None) x t) = alterNode (λ _, None) x t.
Proof.
  intros Hroot. apply alterNode_id, findNode_None, findNode_removed. done.
Qed.

Lemma NoDup_nid_kids ks : NoDup (flat_map ids ks) → NoDup (nid <$> ks).
Proof.
  induction ks as [|c ks IH]; [constructor|]. cbn [flat_map]. rewrite fmap_cons.
  intros (Hc & Hdisj & Hks)%NoDup_app. apply NoDup_cons. split; [|by apply IH].
  intros (k & Hk & Hin)%list_elem_of_fmap.
  apply (Hdisj (nid c)); [apply nid_in_ids|].
  apply elem_of_flat_map_ids. exists k. split; [done|]. rewrite Hk. apply nid_in_ids.
Qed.

Lemma length_filter_without x (ks : list Node) c :
  NoDup (nid <$> ks) → c ∈ ks → nid c = x →
  S (length (filter (λ k, nid k ≠ x) ks)) = length ks.
Proof.
  induction ks as [|k ks IH]; [by inversion 2|].
  rewrite fmap_cons, NoDup_cons, filter_cons. intros [Hk Hnd] Hc Hx.
  apply elem_of_cons in Hc as [->|Hc].
  - destruct (decide (nid k ≠ x)); [done|]. simpl. f_equal.
    clear IH. induction ks as [|k' ks IH]; [done|]. rewrite filter_cons.
    rewrite fmap_cons in Hk, Hnd. apply not_elem_of_cons in Hk as [Hne Hk].
    apply NoDup_cons in Hnd as [_ Hnd].
    destruct (decide (nid k' ≠ x)) as [_|Hn]; [|exfalso; apply Hn; congruence].
    simpl. f_equal. by apply IH.
  - destruct (decide (nid k ≠ x)) as [_|Heq]; [simpl; f_equal; by apply IH|].
    exfalso. apply Hk. apply list_elem_of_fmap. exists c. split; [|done].
    apply dec_stable in Heq. congruence.
Qed.

Lemma filter_key_without k x (ks : list Node) :
  filter (λ c, key c = k) (filter (λ c, nid c ≠ x) ks)
  = filter (λ c, nid c ≠ x) (filter (λ c, key c = k) ks).
Proof.
  induction ks as [|c ks IH]; [done|]. rewrite !filter_cons.
  destruct (decide (nid c ≠ x)), (decide (key c = k)); rewrite ?filter_cons;
    repeat case_decide; try done; by rewrite IH.
Qed.

End Removal.

(** ** What the visitors do to the log and to the set of tags *)

Section Holds.
Context (R : State → State → Prop) `{!PreOrder R}.

Lemma holds_ret {A} (a : A) : holds R (mret a).
Proof. intros st a' st' [= _ <-]. reflexivity. Qed.

Lemma holds_throw {A} e : holds R (throw e : M A).
Proof. by intros st a st'. Qed.

Lemma holds_read {A} (f : State → A) : holds R (read f).
Proof. intros st a st' [= _ <-]. reflexivity. Qed.

Lemma holds_readE {A} (f : State → Error + A) : holds R (readE f).
Proof.
  intros st a st'. unfold readE, liftE. destruct (f st); [done|].
  intros [= _ <-]. reflexivity.
Qed.

Lemma holds_bind {A B} (m : M A) (k : A → M B) :
  holds R m → (∀ a, holds R (k a)) → holds R (m ≫= k).
Proof.
  intros Hm Hk st b st'. unfold mbind, M_bind.
  destruct (m st) as [a st1|] eqn:Hrun; try done.
  intros Hrun'. transitivity st1; [by eapply Hm|by eapply Hk].
Qed.

Lemma holds_when b m : holds R m → holds R (when b m).
Proof. destruct b; [done|]. intros _. apply (holds_ret ()). Qed.

Lemma holds_forEach {A} (f : A → M unit) l :
  (∀ x, holds R (f x)) → holds R (forEach f l).
Proof.
  intros Hf. induction l as [|x l IH]; simpl; [apply (holds_ret ())|].
  apply holds_bind; [apply Hf|by intros _].
Qed.

Lemma holds_traverse root visitor :
  (∀ n, holds R (visitor n)) → holds R (traverse root visitor).
Proof.
  intros Hv. unfold traverse. apply holds_bind; [apply holds_read|].
  intros [rn|]; [|apply (holds_ret ())].
  apply holds_forEach. intros i. apply holds_bind; [apply holds_read|].
  intros [nd|]; [apply Hv|apply (holds_ret ())].
Qed.

End Holds.

Ltac holds_step :=
  lazymatch goal with
  | |- holds _ (mret _) => apply holds_ret; apply _
  | |- holds _ (throw _) => apply holds_throw
  | |- holds _ (read _) => apply holds_read; apply _
  | |- holds _ (readE _) => apply holds_readE; apply _
  | |- holds _ fresh => apply injecting_fresh
  | |- holds _ (replaceWith _ _) => apply injecting_replaceWith
  | |- holds _ (unshiftContainer_body _) => apply injecting_unshift
  | |- holds _ (attributes_push _ _) => apply injecting_push
  | |- holds _ (remove ByHookInjector _) => apply injecting_remove
  | |- holds _ (modify (addLog (EvInject _))) => apply injecting_log
  | |- holds _ (tagsToRemoveImportsFrom_add _) => apply sweeping_add
  | |- holds _ (when _ _) => apply holds_when; [apply _|]
  | |- holds _ (mbind _ _) => apply holds_bind; [apply _| |intros ?]
  | |- holds _ (traverse _ _) => apply holds_traverse; [apply _|intros ?]
  | |- holds _ (forEach _ _) => apply holds_forEach; [apply _|intros ?]
  | |- holds _ (match ?x with _ => _ end) => destruct x
  | |- holds _ (from_option _ _ ?x) => destruct x; cbn [from_option]
  end.

Ltac holds_auto := cbv zeta; repeat holds_step.

Section Injectors.
Context `{Externals}.
Context (R : State → State → Prop) `{!Injecting R}.

Lemma addImport_holds env queryHash identifier :
  holds R (addImport env queryHash identifier).
Proof. unfold addImport. holds_auto. Qed.

Lemma nestedJSXVistor_holds env queryHash path2 :
  holds R (nestedJSXVistor env queryHash path2).
Proof. unfold nestedJSXVistor. holds_auto; apply addImport_holds. Qed.

Lemma nestedHookVisitor_holds env queryHash path2 :
  holds R (nestedHookVisitor env queryHash path2).
Proof. unfold nestedHookVisitor. holds_auto; apply addImport_holds. Qed.

End Injectors.

Section Sweeps.
Context `{Externals}.
Context (R : State → State → Prop) `{!Sweeping R}.





End Sweeps.

Section Log.

#[global] Instance logs_preorder ok : PreOrder (logs ok).
Proof.
  split.
  - intros st. exists []. by rewrite app_nil_r.
  - intros s1 s2 s3 (l1 & H1 & Hl1) (l2 & H2 & Hl2). exists (l1 ++ l2).
    rewrite H2, H1, app_assoc. split; [done|]. by apply Forall_app.
Qed.

#[global] Instance sameTags_preorder : PreOrder sameTags.
Proof. split; [done|]. intros s1 s2 s3 H1 H2. unfold sameTags in *. congruence. Qed.

#[global] Instance distinctTags_preorder : PreOrder distinctTags.
Proof. split; [by intros st Hnd|]. intros s1 s2 s3 H1 H2 Hnd. by apply H2, H1. Qed.

Lemma logs_one ok ev st st' : log st' = log st ++ [ev] → ok ev → logs ok st st'.
Proof. intros Heq Hok. exists [ev]. split; [done|]. by constructor. Qed.

Lemma logs_none ok st st' : log st' = log st → logs ok st st'.
Proof. intros Heq. exists []. by rewrite app_nil_r. Qed.

Lemma remove_logs ok by_ n :
  (∀ x, ok (EvRemove by_ x)) → holds (logs ok) (remove by_ n).
Proof.
  intros Hok st a st'. unfold remove. mrun. intros [= _ <-].
  eexists. split; [reflexivity|]. constructor; [apply Hok|constructor].
Qed.

#[global] Instance logs_injecting ok :
  (∀ i, ok (EvReplace i)) → (∀ i, ok (EvInject i)) → (∀ x, ok (EvRemove ByHookInjector x)) →
  Injecting (logs ok).
Proof.
  intros Hreplace Hinject Hremove. split.
  - apply _.
  - intros st a st' [= _ <-]. by apply logs_none.
  - intros i n st a st' [= _ <-]. by eapply logs_one; [reflexivity|].
  - intros n st a st' [= _ <-]. by apply logs_none.
  - intros p n st a st' [= _ <-]. by apply logs_none.
  - intros n. by apply remove_logs.
  - intros d st a st' [= _ <-]. by eapply logs_one; [reflexivity|].
Qed.

#[global] Instance logs_sweeping ok :
  (∀ i, ok (EvReplace i)) → (∀ i, ok (EvInject i)) → (∀ x, ok (EvRemove ByHookInjector x)) →
  (∀ t, ok (EvEnqueue t)) →
  Sweeping (logs ok).
Proof.
  intros Hreplace Hinject Hremove Henqueue. split; [by apply logs_injecting|].
  intros [t|] st a st'; unfold tagsToRemoveImportsFrom_add; mrun; intros [= _ <-].
  - case_bool_decide; [by apply logs_none|]. by eapply logs_one; [reflexivity|].
  - by apply logs_none.
Qed.

#[global] Instance sameTags_injecting : Injecting sameTags.
Proof.
  split; [apply _|..]; by intros; intros st a st' [= _ <-].
Qed.

#[global] Instance distinctTags_sweeping : Sweeping distinctTags.
Proof.
  split; [split; [apply _|..]|].
  1-6: by intros; intros st a st'; unfold remove; mrun; intros [= _ <-] Hnd; exact Hnd.
  intros [t|] st a st'; unfold tagsToRemoveImportsFrom_add; mrun; intros [= _ <-]; [|done].
  case_bool_decide as Hin; [done|]. intros Hnd. cbn [tagsToRemoveImportsFrom addLog setTags].
  rewrite fmap_app. apply NoDup_app. split; [done|]. split; [|apply NoDup_singleton].
  intros x Hx ->%list_elem_of_singleton. done.
Qed.

#[global] Instance sweepEvent_sweeping : Sweeping (logs sweepEvent).
Proof. apply logs_sweeping; by intros. Qed.

End Log.

(** ** Tag resolution *)

Section Resolution.

Lemma followVariableDeclarations_step stack st b :
  followVariableDeclarations (S stack) st (Some b) =
    match aliasTarget st b with
    | Some next => followVariableDeclarations stack st next
    | None => inr b
    end.
Proof.
  unfold aliasTarget. simpl. destruct (pathNode st (path b)); [|done].
  now destruct (_ && _).
Qed.

(** C4, as amended.  The resolver has no bound on its recursion and no
    visited set; what bounds it is the chain of aliases, or else the call
    stack.  When the chain that starts at the binding ends after [n] further
    calls, the resolver gives what the chain ends with as soon as the stack
    has room for more than [n] calls, and exhausts a smaller stack.  When the
    chain does not end (it runs into a cycle), the resolver exhausts the
    stack however large it is: the call ends with the [RangeError] of the
    engine, never with a binding. *)
Theorem followVariableDeclarations_terminates_without_cycle st b :
  (∀ n r, chainEnds st b n r →
     ∀ stack, followVariableDeclarations stack st (Some b)
              = if decide (n < stack) then r else inl stackOverflow)
  ∧ ((∀ n r, ¬ chainEnds st b n r) →
     ∀ stack, followVariableDeclarations stack st (Some b) = inl stackOverflow).
Proof.
  split.
  - intros n r Hchain.
    induction Hchain as [b Hend|b Hunbound|b b' n r Hstep _ IH]; intros [|stack]; try done;
      rewrite followVariableDeclarations_step.
    + by rewrite Hend.
    + rewrite Hunbound. by destruct stack.
    + rewrite Hstep, IH. destruct (decide (n < stack)), (decide (S n < S stack)); done || lia.
  - intros Hloop stack. revert b Hloop.
    induction stack as [|stack IH]; intros b Hloop; [done|].
    rewrite followVariableDeclarations_step.
    destruct (aliasTarget st b) as [[b'|]|] eqn:Hstep.
    + apply IH. intros n r Hchain. apply (Hloop (S n) r). by eapply chain_step.
    + destruct (Hloop _ _ (chain_unbound st b Hstep)).
    + destruct (Hloop _ _ (chain_end st b Hstep)).
Qed.

(** On [let x = y; let y = x] the stack is exhausted, whatever its size. *)
Lemma cyclic_aliases_go_on stack :
  followVariableDeclarations stack Sample.cyclic (Some (Sample.constBinding 11))
  = inl stackOverflow
  ∧ followVariableDeclarations stack Sample.cyclic (Some (Sample.constBinding 21))
    = inl stackOverflow.
Proof.
  induction stack as [|stack [IHx IHy]]; [done|].
  rewrite !followVariableDeclarations_step.
  change (aliasTarget Sample.cyclic (Sample.constBinding 11))
    with (Some (Some (Sample.constBinding 21))).
  change (aliasTarget Sample.cyclic (Sample.constBinding 21))
    with (Some (Some (Sample.constBinding 11))).
  done.
Qed.

(** C4, as the claim states it, fails on [let x = y; let y = x]: the
    recursion from the binding of [x] is not bounded, no stack is large
    enough for it. *)
Lemma cyclic_aliases_never_come_back :
  ¬ boundedRecursion Sample.cyclic (Some (Sample.constBinding 11)).
Proof.
  intros (depth & Hdepth). apply (Hdepth depth); [done|].
  apply cyclic_aliases_go_on.
Qed.

(** C2, as amended.  A property access whose base identifier is bound by a
    named-import specifier: the accessed property is not looked at.  The tag
    is a query tag exactly when the specifier comes from [gatsby] and imports
    the name [graphql]. *)
Theorem property_access_on_named_import st tag object b spec decl :
  type tag = MemberExpression →
  get "object" tag = Some object →
  getBinding st (scope object) (name object) = Some b →
  kind b = "module" →
  pathNode st (path b) = Some spec →
  type spec = ImportSpecifier →
  parentPath st (path b) = Some decl →
  type decl = ImportDeclaration →
  isGraphqlTag st (Some tag) =
    inr (bool_decide (get "source" decl ≫= value = Some "gatsby")
         && bool_decide (nameOf (get "imported" spec) = Some "graphql")).
Proof.
  intros Htag Hobj Hb Hkind Hspec Hty Hdecl Htd.
  assert (Himport : getTagImport st object =
            inr (if bool_decide (get "source" decl ≫= value = Some "gatsby")
                 then Some spec else None)).
  { unfold getTagImport. rewrite Hb, Hkind, Hspec, Hdecl. cbn [isType mbind option_bind].
    rewrite Htd, Hty. rewrite (bool_decide_true (_ = "module")) by done.
    rewrite (bool_decide_true (ImportDeclaration = _)) by done.
    rewrite (bool_decide_false (ImportSpecifier = VariableDeclarator)) by done.
    cbn [andb].
    destruct (decide (get "source" decl ≫= value = Some "gatsby"));
      [rewrite !bool_decide_true by done|rewrite !bool_decide_false by done]; done. }
  unfold isGraphqlTag. cbn [isType mbind option_bind].
  rewrite Htag, bool_decide_true by done. rewrite Hobj, Himport.
  destruct (decide (get "source" decl ≫= value = Some "gatsby"));
    [rewrite !(bool_decide_true (_ = Some "gatsby")) by done
    |rewrite !(bool_decide_false (_ = Some "gatsby")) by done]; cbn [andb].
  - rewrite Hty. rewrite (bool_decide_false (ImportSpecifier = ImportNamespaceSpecifier)) by done.
    rewrite (bool_decide_false (ImportSpecifier = Identifier)) by done.
    now rewrite (bool_decide_true (ImportSpecifier = ImportSpecifier)).
  - unfold isGlobalIdentifier, isIdentifierNamed. rewrite Htag.
    now rewrite bool_decide_false.
Qed.

End Resolution.

Lemma followVariableDeclarations_terminates_without_cycle_witness :
  followVariableDeclarations 3 Sample.alias_chain (Some (Sample.constBinding 31))
  = inr (Sample.constBinding 11)
  ∧ followVariableDeclarations 2 Sample.alias_chain (Some (Sample.constBinding 31))
    = inl stackOverflow.
Proof.
  assert (Hchain : chainEnds Sample.alias_chain (Sample.constBinding 31) 2
                     (inr (Sample.constBinding 11))).
  { apply (chain_step _ _ (Sample.constBinding 21)); [vm_compute; reflexivity|].
    apply (chain_step _ _ (Sample.constBinding 11)); [vm_compute; reflexivity|].
    apply chain_end. vm_compute. reflexivity. }
  split.
  - apply (proj1 (followVariableDeclarations_terminates_without_cycle Sample.alias_chain
                    (Sample.constBinding 31)) 2 _ Hchain 3).
  - apply (proj1 (followVariableDeclarations_terminates_without_cycle Sample.alias_chain
                    (Sample.constBinding 31)) 2 _ Hchain 2).
Defined.

Lemma property_access_on_named_import_witness :
  isGraphqlTag Sample.named_member (Some Sample.named_member_tag) = inr (true && true).
Proof.
  apply (property_access_on_named_import Sample.named_member Sample.named_member_tag
           (Sample.ident 31 "object" "graphql") (Sample.moduleBinding 12)
           (Sample.importSpecifier 12 "graphql" "graphql")
           (Sample.importDeclaration 10 [ Sample.importSpecifier 12 "graphql" "graphql" ]
              "gatsby"));
    vm_compute; reflexivity.
Defined.

(** C2, as the claim states it, fails on [import { graphql } from 'gatsby']
    with the tag [graphql.foo]: the base is bound by a named-import
    specifier, and the tag is classified as a query tag. *)
Lemma named_import_property_access_matches :
  type Sample.named_member_tag = MemberExpression
  ∧ (∃ object b spec,
       get "object" Sample.named_member_tag = Some object
       ∧ getBinding Sample.named_member (scope object) (name object) = Some b
       ∧ pathNode Sample.named_member (path b) = Some spec
       ∧ type spec = ImportSpecifier)
  ∧ isGraphqlTag Sample.named_member (Some Sample.named_member_tag) = inr true.
Proof.
  split; [done|]. split; [|by vm_compute].
  eexists _, _, _.
  split; [vm_compute; reflexivity|]. split; [vm_compute; reflexivity|].
  split; vm_compute; reflexivity.
Qed.

(** ** Query extraction *)

Section Extraction.
Context `{Externals}.


Lemma getGraphQLTag_query st path_ :
  isQueryTag st (get "tag" path_) →
  getGraphQLTag st path_ =
    match from_option (getList "quasis") [] (get "quasi" path_) with
    | [] => inl (TypeError "Cannot read properties of undefined (reading 'loc')")
    | [q] =>
        match raw q with
        | None => inl (TypeError "Cannot read properties of undefined (reading 'raw')")
        | Some text =>
            try_catch_rethrow
              (match graphql_parse text with
               | inl err => inl err
               | inr ast =>
                   if bool_decide (length (definitions ast) = 0)
                   then inl (EmptyGraphQLTagError (loc q))
                   else inr (GraphQLTag ast text (murmurhash text 0)
                               (isGlobalIdentifier st (get "tag" path_)))
               end)
              (λ err, GraphQLSyntaxError text err (loc q))
        end
    | q0 :: q1 :: _ =>
        inl (newStringInterpolationNotAllowedError
               (loc_end <$> loc q0) (loc_start <$> loc q1))
    end.
Proof.
  intros Hq. unfold getGraphQLTag.
  destruct (isGlobalIdentifier st (get "tag" path_)) eqn:Hg; [reflexivity|].
  destruct Hq as [Hq|Hq]; [congruence|]. now rewrite Hq.
Qed.



(** The faults of the classifier are type errors. *)
Lemma getTagImport_fault st tag e :
  getTagImport st tag = inl e → ∃ m, e = TypeError m.
Proof.
  unfold getTagImport. destruct (getBinding _ _ _) as [b|]; [|done].
  destruct (_ && _ && _); [done|]. destruct (_ && _ && _); [|done].
  destruct (head _) as [arg|]; [|intros [= <-]; eauto].
  destruct (bool_decide (value arg = _)); [|done].
  destruct (isType ObjectPattern _); [|done].
  generalize (from_option (getList "properties") [] (pathNode st (path b) ≫= get "id")).
  intros ps. induction ps as [|p ps IH]; [done|].
  destruct (get "value" p) as [v|]; [|intros [= <-]; eauto].
  by destruct (bool_decide _).
Qed.

Lemma isGraphqlTag_fault st tag e :
  isGraphqlTag st tag = inl e → ∃ m, e = TypeError m.
Proof.
  unfold isGraphqlTag. destruct (if isType MemberExpression tag then _ else _) as [ident|];
    [|intros [= <-]; eauto].
  destruct (getTagImport st ident) as [e'|[importPath|]] eqn:Himport.
  - intros [= <-]. by eapply getTagImport_fault.
  - destruct (_ && _); [done|]. destruct (isType ImportSpecifier _); [done|].
    by destruct (isType ObjectProperty _).
  - done.
Qed.

(** Whatever the template and whatever the parser, the fault of the empty
    document is not among those that [getGraphQLTag] throws. *)
Lemma EmptyGraphQLTagError_never_escapes st path_ templateLoc :
  getGraphQLTag st path_ ≠ inl (EmptyGraphQLTagError templateLoc).
Proof.
  unfold getGraphQLTag.
  destruct (isGlobalIdentifier st (get "tag" path_)).
  2: destruct (isGraphqlTag st (get "tag" path_)) as [e|[|]] eqn:Htag;
       [by intros [= ->]; apply isGraphqlTag_fault in Htag as [? [=]]| |done].
  all: destruct (from_option _ _ _) as [|q [|q1 qs]]; [done| |];
    [destruct (raw q); [|done]; unfold try_catch_rethrow;
     destruct (graphql_parse _); [done|]; by destruct (bool_decide _)
    |unfold newStringInterpolationNotAllowedError;
     by destruct (loc_end <$> loc q), (loc_start <$> loc q1)].
Qed.



End Extraction.





(** ** Import pruning *)

Section Pruning.

Lemma tree_removeFromScope n st : tree (removeFromScope n st) = tree st.
Proof. done. Qed.

(** What [remove] leaves: the path is gone. *)
Lemma remove_gone by_ n st :
  nid (tree st) ≠ nid n →
  ∃ st', remove by_ n st = Return () st' ∧ pathNode st' (nid n) = None.
Proof.
  intros Hroot. unfold remove. mrun. eexists. split; [reflexivity|].
  unfold pathNode. cbn [tree addLog setTree].
  apply findNode_removed. by rewrite alterNode_nid.
Qed.

(** When the removal hook does not apply, only the path goes. *)
Lemma remove_plain by_ n st :
  key n ≠ "declaration" →
  nid (tree st) ≠ nid n →
  ∃ st', remove by_ n st = Return () st'
         ∧ tree st' = alterNode (λ _, None) (nid n) (tree st).
Proof.
  intros Hkey Hroot. unfold remove. mrun. eexists. split; [reflexivity|].
  rewrite bool_decide_false by done. cbn [andb tree addLog setTree].
  destruct (parentPath st (nid n)); by rewrite alterNode_remove_twice.
Qed.

Lemma parentPath_ancestors st x p :
  parentPath st x = Some p → ∃ up, ancestors x (tree st) = Some (p :: up).
Proof.
  unfold parentPath. destruct (ancestors x (tree st)) as [[|a up]|]; try done.
  intros [= ->]. by exists up.
Qed.

Lemma getList_key k p c : c ∈ getList k p → key c = k ∧ c ∈ kids p.
Proof. unfold getList. by intros ?%list_elem_of_filter. Qed.

(** The sibling case of both import shapes: the backing node is one of
    several in the list [k] of its parent, and it alone goes. *)
Lemma remove_among_siblings by_ st importPath parent_ k :
  NoDup (ids (tree st)) →
  parentPath st (nid importPath) = Some parent_ →
  importPath ∈ getList k parent_ →
  k ≠ "declaration" →
  ∃ st' parent',
    remove by_ importPath st = Return () st'
    ∧ pathNode st' (nid parent_) = Some parent'
    ∧ getList k parent' = filter (λ s, nid s ≠ nid importPath) (getList k parent_)
    ∧ S (length (getList k parent')) = length (getList k parent_).
Proof.
  intros Hnd Hparent Hin Hk.
  destruct (getList_key _ _ _ Hin) as [Hkey Hkid].
  destruct (parentPath_ancestors _ _ _ Hparent) as [up Hup].
  destruct (parent_after_removal _ _ _ _ Hnd Hup) as (Hndp & _ & Hpin & Hfind).
  assert (Hroot : nid (tree st) ≠ nid importPath).
  { intros Heq. rewrite ancestors_eq in Hup. by destruct (decide _). }
  destruct (remove_plain by_ importPath st) as (st' & Hrun & Htree); [congruence|done|].
  exists st', (setKids (filter (λ c, nid c ≠ nid importPath) (kids parent_)) parent_).
  split; [done|]. unfold pathNode. rewrite Htree. split; [done|].
  assert (Hfilter : getList k (setKids (filter (λ c, nid c ≠ nid importPath) (kids parent_)) parent_)
                    = filter (λ s, nid s ≠ nid importPath) (getList k parent_)).
  { unfold getList. cbn [kids setKids]. apply filter_key_without. }
  split; [done|]. rewrite Hfilter.
  apply (length_filter_without _ _ importPath); [|done|done].
  apply NoDup_ids_kids in Hndp as [_ Hndk]. apply NoDup_nid_kids in Hndk.
  unfold getList. eapply sublist_NoDup; [exact Hndk|].
  apply fmap_sublist, sublist_filter.
Qed.

End Pruning.

Section PruningClaim.

Lemma ancestor_is_not_root st x up a :
  NoDup (ids (tree st)) →
  ancestors x (tree st) = Some up →
  a ∈ up →
  type a ≠ type (tree st) →
  nid (tree st) ≠ nid a.
Proof.
  intros Hnd Hup Ha Hty Heq.
  pose proof (ancestors_found _ _ _ Hnd Hup a Ha) as Hfind.
  rewrite findNode_eq in Hfind. destruct (decide _); [|done]. congruence.
Qed.

(** C6, as amended.  [removeImport] on a tag whose backing import construct
    ([getTagImport]) is [importPath], a child of [parent_], in a tree whose
    paths are distinct.  With [N] the length of the list that holds the
    construct (all the [specifiers] of the import declaration, default and
    namespace specifiers counted with the named ones; all the [properties]
    of the object pattern):
    - a named specifier: for [N = 1] the whole declaration is gone, else the
      declaration stays with the other [N - 1] specifiers;
    - a destructured property of [require('gatsby')]: for [N = 1] the
      enclosing variable declaration is gone, else the pattern stays with the
      other [N - 1] properties. *)
Theorem removeImport_deletes_minimal_unit st tag ident importPath parent_ :
  NoDup (ids (tree st)) →
  type (tree st) = Program →
  (if isType MemberExpression (Some tag) then get "object" tag else Some tag) = Some ident →
  getTagImport st ident = inr (Some importPath) →
  parentPath st (nid importPath) = Some parent_ →
  (type importPath = ImportSpecifier →
   type parent_ = ImportDeclaration →
   importPath ∈ getList "specifiers" parent_ →
   ∃ st', removeImport tag st = Return () st'
     ∧ (length (getList "specifiers" parent_) = 1 → pathNode st' (nid parent_) = None)
     ∧ (length (getList "specifiers" parent_) ≠ 1 →
        ∃ parent', pathNode st' (nid parent_) = Some parent'
          ∧ getList "specifiers" parent'
            = filter (λ s, nid s ≠ nid importPath) (getList "specifiers" parent_)
          ∧ length (getList "specifiers" parent')
            = length (getList "specifiers" parent_) - 1))
  ∧ (type importPath = ObjectProperty →
     importPath ∈ getList "properties" parent_ →
     ∃ st', removeImport tag st = Return () st'
       ∧ (length (getList "properties" parent_) = 1 →
          ∀ declaration,
            findParent VariableDeclaration (nid importPath) st = Some declaration →
            pathNode st' (nid declaration) = None)
       ∧ (length (getList "properties" parent_) ≠ 1 →
          ∃ parent', pathNode st' (nid parent_) = Some parent'
            ∧ getList "properties" parent'
              = filter (λ s, nid s ≠ nid importPath) (getList "properties" parent_)
            ∧ length (getList "properties" parent')
              = length (getList "properties" parent_) - 1)).
Proof.
  intros Hnd Hprogram Hident Himport Hparent.
  set (st0 := addLog (EvPrune (nid tag)) st).
  destruct (parentPath_ancestors _ _ _ Hparent) as [up Hup].
  split.
  - intros Hty Htyp Hin.
    destruct (decide (length (getList "specifiers" parent_) = 1)) as [Hone|Hmany].
    + destruct (remove_gone (ByImportPruner (nid tag)) parent_ st0) as (st' & Hrm & Hgone).
      { eapply (ancestor_is_not_root st); [done|done|left|congruence]. }
      exists st'. split; [|split; [done|by intros []]].
      unfold removeImport. mrun. rewrite Hident.
      change (getTagImport (addLog _ st) ident) with (getTagImport st ident).
      rewrite Himport. mrun.
      change (parentPath (addLog _ st) (nid importPath)) with (parentPath st (nid importPath)).
      rewrite Hparent. cbn [isType from_option]. rewrite Hty.
      rewrite (bool_decide_true (ImportSpecifier = ImportSpecifier)) by done.
      rewrite (bool_decide_true (length _ = 1)) by done.
      fold st0. rewrite Hrm.
      rewrite (bool_decide_false (ImportSpecifier = ObjectProperty)) by done.
      by rewrite (bool_decide_false (ImportSpecifier = Identifier)).
    + destruct (remove_among_siblings (ByImportPruner (nid tag)) st0 importPath parent_
                  "specifiers") as (st' & parent' & Hrm & Hfind & Hlist & Hlen); try done.
      exists st'. split; [|split; [done|]].
      * unfold removeImport. mrun. rewrite Hident.
        change (getTagImport (addLog _ st) ident) with (getTagImport st ident).
        rewrite Himport. mrun.
        change (parentPath (addLog _ st) (nid importPath)) with (parentPath st (nid importPath)).
        rewrite Hparent. cbn [isType from_option]. rewrite Hty.
        rewrite (bool_decide_true (ImportSpecifier = ImportSpecifier)) by done.
        rewrite (bool_decide_false (length _ = 1)) by done.
        fold st0. rewrite Hrm.
        rewrite (bool_decide_false (ImportSpecifier = ObjectProperty)) by done.
        by rewrite (bool_decide_false (ImportSpecifier = Identifier)).
      * intros _. exists parent'. repeat split; [done|done|lia].
  - intros Hty Hin.
    destruct (decide (length (getList "properties" parent_) = 1)) as [Hone|Hmany].
    + assert (Hbody : ∃ st', removeVariableDeclaration (ByImportPruner (nid tag)) importPath st0
                             = Return () st'
                ∧ ∀ declaration,
                    findParent VariableDeclaration (nid importPath) st = Some declaration →
                    pathNode st' (nid declaration) = None).
      { unfold removeVariableDeclaration. mrun.
        change (findParent VariableDeclaration (nid importPath) st0)
          with (findParent VariableDeclaration (nid importPath) st).
        destruct (findParent VariableDeclaration (nid importPath) st) as [d|] eqn:Hd.
        - destruct (remove_gone (ByImportPruner (nid tag)) d st0) as (st' & Hrm & Hgone).
          { unfold findParent in Hd. rewrite Hup in Hd. cbn [mbind option_bind] in Hd.
            apply head_Some_elem_of, list_elem_of_filter in Hd as [Hdty Hdin].
            eapply (ancestor_is_not_root st); [done|done|done|congruence]. }
          exists st'. split; [done|]. by intros ? [= <-].
        - eexists. split; [reflexivity|]. done. }
      destruct Hbody as (st' & Hrm & Hgone).
      exists st'. split; [|split; [done|by intros []]].
      unfold removeImport. mrun. rewrite Hident.
      change (getTagImport (addLog _ st) ident) with (getTagImport st ident).
      rewrite Himport. mrun.
      change (parentPath (addLog _ st) (nid importPath)) with (parentPath st (nid importPath)).
      rewrite Hparent. cbn [isType from_option]. rewrite Hty.
      rewrite (bool_decide_false (ObjectProperty = ImportSpecifier)) by done.
      rewrite (bool_decide_true (ObjectProperty = ObjectProperty)) by done.
      rewrite (bool_decide_true (length _ = 1)) by done.
      fold st0. rewrite Hrm.
      by rewrite (bool_decide_false (ObjectProperty = Identifier)).
    + destruct (remove_among_siblings (ByImportPruner (nid tag)) st0 importPath parent_
                  "properties") as (st' & parent' & Hrm & Hfind & Hlist & Hlen); try done.
      exists st'. split; [|split; [done|]].
      * unfold removeImport. mrun. rewrite Hident.
        change (getTagImport (addLog _ st) ident) with (getTagImport st ident).
        rewrite Himport. mrun.
        change (parentPath (addLog _ st) (nid importPath)) with (parentPath st (nid importPath)).
        rewrite Hparent. cbn [isType from_option]. rewrite Hty.
        rewrite (bool_decide_false (ObjectProperty = ImportSpecifier)) by done.
        rewrite (bool_decide_true (ObjectProperty = ObjectProperty)) by done.
        rewrite (bool_decide_false (length _ = 1)) by done.
        fold st0. rewrite Hrm.
        by rewrite (bool_decide_false (ObjectProperty = Identifier)).
      * intros _. exists parent'. repeat split; [done|done|lia].
Qed.

End PruningClaim.

Lemma NoDup_ids_two_specifiers : NoDup (ids (tree Sample.two_specifiers)).
Proof. apply (bool_decide_unpack _ (dec := NoDup_dec _)). vm_compute. exact I. Defined.

Lemma removeImport_deletes_minimal_unit_witness :
  let st := Sample.two_specifiers in
  let decl :=
    Sample.importDeclaration 10
      [ Sample.importSpecifier 12 "graphql" "graphql"; Sample.importSpecifier 15 "Link" "Link" ]
      "gatsby" in
  let spec := Sample.importSpecifier 12 "graphql" "graphql" in
  (type spec = ImportSpecifier →
   type decl = ImportDeclaration →
   spec ∈ getList "specifiers" decl →
   ∃ st', removeImport Sample.graphql_tag st = Return () st'
     ∧ (length (getList "specifiers" decl) = 1 → pathNode st' (nid decl) = None)
     ∧ (length (getList "specifiers" decl) ≠ 1 →
        ∃ parent', pathNode st' (nid decl) = Some parent'
          ∧ getList "specifiers" parent'
            = filter (λ s, nid s ≠ nid spec) (getList "specifiers" decl)
          ∧ length (getList "specifiers" parent') = length (getList "specifiers" decl) - 1))
  ∧ (type spec = ObjectProperty →
     spec ∈ getList "properties" decl →
     ∃ st', removeImport Sample.graphql_tag st = Return () st'
       ∧ (length (getList "properties" decl) = 1 →
          ∀ declaration,
            findParent VariableDeclaration (nid spec) st = Some declaration →
            pathNode st' (nid declaration) = None)
       ∧ (length (getList "properties" decl) ≠ 1 →
          ∃ parent', pathNode st' (nid decl) = Some parent'
            ∧ getList "properties" parent'
              = filter (λ s, nid s ≠ nid spec) (getList "properties" decl)
            ∧ length (getList "properties" parent')
              = length (getList "properties" decl) - 1)).
Proof.
  intros st decl spec.
  apply (removeImport_deletes_minimal_unit st Sample.graphql_tag Sample.graphql_tag spec decl).
  - exact NoDup_ids_two_specifiers.
  - reflexivity.
  - reflexivity.
  - vm_compute. reflexivity.
  - vm_compute. reflexivity.
Defined.

(** C6, as the claim states it, fails on
    [import Gatsby, { graphql } from 'gatsby']: the declaration has one named
    specifier, the one that backs the tag, and yet it survives the pruner,
    which counts the default specifier too and removes the named one only. *)
Lemma default_import_keeps_the_declaration :
  ∃ decl st' decl',
    pathNode Sample.default_and_named 10 = Some decl
    ∧ type decl = ImportDeclaration
    ∧ type <$> getList "specifiers" decl = [ImportDefaultSpecifier; ImportSpecifier]
    ∧ length (filter (λ s, type s = ImportSpecifier) (getList "specifiers" decl)) = 1
    ∧ removeImport Sample.graphql_tag Sample.default_and_named = Return () st'
    ∧ pathNode st' 10 = Some decl'
    ∧ type decl' = ImportDeclaration
    ∧ type <$> getList "specifiers" decl' = [ImportDefaultSpecifier].
Proof.
  eexists _, _, _. split; [vm_compute; reflexivity|].
  repeat split; vm_compute; reflexivity.
Qed.

(** ** The global tag and the injected identifier *)

Section Rewrite.
Context `{Externals}.

Lemma bind_run {A B} (m : M A) (k : A → M B) st a st1 :
  m st = Return a st1 → (m ≫= k) st = k a st1.
Proof. intros Hm. unfold mbind, M_bind. by rewrite Hm. Qed.

Lemma read_run {A} (f : State → A) st : read f st = Return (f st) st.
Proof. done. Qed.

Lemma modify_run f st : modify f st = Return () (f st).
Proof. done. Qed.

Lemma fresh_run st : fresh st = Return (nextId st) (setNextId (S (nextId st)) st).
Proof. done. Qed.

Lemma replaceWith_found st i new c :
  nid (tree st) ≠ i →
  pathNode st i = Some c →
  ∃ st', replaceWith i new st = Return () st'
    ∧ pathNode st' i = Some (mkNode i (type new) (key c) (name new) (value new) (raw new)
                               (loc new) (scope c) (kids new))
    ∧ tagsToRemoveImportsFrom st' = tagsToRemoveImportsFrom st
    ∧ log st' = log st ++ [EvReplace i].
Proof.
  intros Hroot Hfind. eexists. split; [reflexivity|]. split; [|done].
  unfold pathNode in *. cbn [tree addLog setTree].
  erewrite findNode_alterNode; [|intros c' <-; eauto|done|exact Hfind].
  by rewrite (findNode_nid _ _ _ Hfind).
Qed.

(** The way up from a path ends at the root. *)
Lemma ancestors_above x t c :
  findNode x t = Some c → nid t ≠ x → ∃ up, ancestors x t = Some (up ++ [t]).
Proof.
  intros Hfind Hne. rewrite findNode_eq in Hfind. rewrite ancestors_eq.
  destruct (decide (nid t = x)); [done|].
  apply firstSome_Some in Hfind as (l1 & ck & l2 & -> & Hck & Hl1).
  rewrite firstSome_app_None.
  - cbn [firstSome]. destruct (ancestors x ck) as [up|] eqn:Hup; [by exists up|].
    apply ancestors_None, findNode_None in Hup. congruence.
  - eapply Forall_impl; [exact Hl1|]. intros k Hk. cbn beta.
    apply findNode_None, ancestors_None in Hk. by rewrite Hk.
Qed.

Lemma alterNode_type f x t : type (alterNode f x t) = type t.
Proof. by destruct t. Qed.

(** A traversal whose visitor does nothing does nothing. *)
Lemma traverse_idle root visitor st :
  (∀ n st', visitor n st' = Return () st') → traverse root visitor st = Return () st.
Proof.
  intros Hidle. unfold traverse. erewrite bind_run by apply read_run.
  destruct (pathNode st root) as [rn|]; [|done].
  induction (descendants rn) as [|i l IH]; [done|].
  cbn [forEach]. erewrite bind_run; [exact IH|].
  erewrite bind_run by apply read_run. by destruct (pathNode st i).
Qed.

Lemma injectors_sleep env queryHash path2 st :
  productionLike env = false →
  nestedJSXVistor env queryHash path2 st = Return () st
  ∧ nestedHookVisitor env queryHash path2 st = Return () st.
Proof.
  intros Henv. unfold nestedJSXVistor, nestedHookVisitor. rewrite Henv. cbn [andb when].
  split; by destruct (bool_decide _).
Qed.

(** What [setImportForStaticQuery] does with a query, once the tag is in the
    set if it has to be: the template is replaced by the string literal of
    the decimal hash, and the two injectors are sent through the nearest
    enclosing program or opening element. *)
Lemma setImportForStaticQuery_run env st st0 path_ ast text hash isGlobal :
  type (tree st) = Program →
  pathNode st (nid path_) = Some path_ →
  type path_ = TaggedTemplateExpression →
  getGraphQLTag st path_ = inr (GraphQLTag ast text hash isGlobal) →
  when (negb isGlobal) (tagsToRemoveImportsFrom_add (get "tag" path_)) st = Return () st0 →
  tree st0 = tree st →
  ∃ st1 literal parent_,
    replaceWith (nid path_) (leaf (nid path_) StringLiteral "" None (Some (pretty hash)) 0) st0
    = Return () st1
    ∧ pathNode st1 (nid path_) = Some literal
    ∧ type literal = StringLiteral
    ∧ value literal = Some (pretty hash)
    ∧ kids literal = []
    ∧ tagsToRemoveImportsFrom st1 = tagsToRemoveImportsFrom st0
    ∧ scopes st1 = scopes st0
    ∧ log st1 = log st0 ++ [EvReplace (nid path_)]
    ∧ type parent_ ∈ [Program; JSXOpeningElement]
    ∧ head (filter (λ a, type a ∈ [Program; JSXOpeningElement])
              (default [] (ancestors (nid path_) (tree st1))))
      = Some parent_
    ∧ setImportForStaticQuery env path_ st
      = (traverse (nid parent_) (nestedJSXVistor env (pretty hash));;
         traverse (nid parent_) (nestedHookVisitor env (pretty hash))) st1.
Proof.
  intros Hprogram Hfind Hty Hget Hadd Htree.
  assert (Hroot : nid (tree st0) ≠ nid path_).
  { rewrite Htree. intros Heq. unfold pathNode in Hfind. rewrite findNode_eq in Hfind.
    destruct (decide _); [|done]. congruence. }
  assert (Hfind0 : pathNode st0 (nid path_) = Some path_) by (unfold pathNode; by rewrite Htree).
  destruct (replaceWith_found st0 (nid path_)
              (leaf (nid path_) StringLiteral "" None (Some (pretty hash)) 0) path_
              Hroot Hfind0) as (st1 & Hrun & Hlit & Htags & Hlog).
  assert (Hst1 : tree st1 = alterNode (λ old, Some (mkNode (nid old) StringLiteral (key old)
                                  None (Some (pretty hash)) None None (scope old) []))
                              (nid path_) (tree st0)
                 ∧ scopes st1 = scopes st0).
  { unfold replaceWith in Hrun. rewrite modify_run in Hrun. by injection Hrun as <-. }
  destruct Hst1 as [Htree1 Hscopes].
  assert (Hup : ∃ up, ancestors (nid path_) (tree st1) = Some (up ++ [tree st1])).
  { eapply ancestors_above; [exact Hlit|]. by rewrite Htree1, alterNode_nid. }
  destruct Hup as [up Hup].
  assert (Hparent : ∃ parent_,
            head (filter (λ a, type a ∈ [Program; JSXOpeningElement]) (up ++ [tree st1]))
            = Some parent_).
  { rewrite filter_app, filter_cons_True.
    - destruct (filter _ up); eauto.
    - rewrite Htree1, alterNode_type, Htree, Hprogram. left. }
  destruct Hparent as [parent_ Hparent].
  eexists st1, _, parent_. split; [done|]. split; [exact Hlit|].
  do 6 (split; [done|]). split.
  { by apply head_Some_elem_of, list_elem_of_filter in Hparent as [? _]. }
  split; [by rewrite Hup|].
  unfold setImportForStaticQuery.
  etransitivity; [eapply bind_run; unfold readE; by rewrite Hget|]. cbv zeta.
  etransitivity; [eapply bind_run; exact Hadd|].
  etransitivity; [eapply bind_run; exact Hrun|].
  etransitivity; [eapply bind_run; apply read_run|].
  rewrite Hup. cbn [from_option]. change (id ?x) with x. by rewrite Hparent.
Qed.

(** The injectors, sent through the tree, leave the set of tags alone. *)
Lemma injectors_keep_tags env queryHash root st st' :
  (traverse root (nestedJSXVistor env queryHash);;
   traverse root (nestedHookVisitor env queryHash)) st = Return () st' →
  tagsToRemoveImportsFrom st' = tagsToRemoveImportsFrom st.
Proof.
  intros Hrun.
  assert (Hsame : holds sameTags
                    (traverse root (nestedJSXVistor env queryHash);;
                     traverse root (nestedHookVisitor env queryHash))).
  { repeat first [ holds_step
                 | apply nestedJSXVistor_holds; apply _
                 | apply nestedHookVisitor_holds; apply _ ]. }
  by eapply Hsame.
Qed.

Lemma sleeping_injectors_return env queryHash root st :
  productionLike env = false →
  (traverse root (nestedJSXVistor env queryHash);;
   traverse root (nestedHookVisitor env queryHash)) st = Return () st.
Proof.
  intros Henv. erewrite bind_run; apply traverse_idle; intros n st'';
    by apply injectors_sleep.
Qed.


Lemma findNode_fresh_leaf x i t k nm v s : x ≠ i → findNode x (leaf i t k nm v s) = None.
Proof.
  intros Hne. apply findNode_None. unfold ids. simpl.
  apply not_elem_of_cons. split; [done|apply not_elem_of_nil].
Qed.

(** C8, as amended.  When the attribute-style injector fires on the name of
    a [<StaticQuery>] opening element, the identifier it puts into the new
    [data] attribute and into the default import at the head of the program
    is the fixed name [staticQueryData]: neither the bindings of the file nor
    earlier injections are looked at. *)
Theorem injected_identifier_is_fixed env queryHash st path2 opening :
  type (tree st) = Program →
  productionLike env = true →
  type path2 = JSXIdentifier →
  name path2 = Some "StaticQuery" →
  referencesImport st (Some path2) "gatsby" None = true →
  parentPath st (nid path2) = Some opening →
  type opening = JSXOpeningElement →
  pathNode st (nid opening) = Some opening →
  nid opening < nextId st →
  ∃ st' opening',
    nestedJSXVistor env queryHash path2 st = Return () st'
    ∧ leadingImportLocal st' = Some "staticQueryData"
    ∧ pathNode st' (nid opening) = Some opening'
    ∧ length (getList "attributes" opening') = S (length (getList "attributes" opening))
    ∧ lastAttributeIdentifier opening' = Some "staticQueryData".
Proof.
  intros Hprogram Henv Hty Hname Hrefs Hparent Htyo Hfind Hfresh.
  assert (Hroot : nid (tree st) ≠ nid opening).
  { intros Heq. unfold pathNode in Hfind. rewrite findNode_eq in Hfind.
    destruct (decide _); [|done]. congruence. }
  set (sc := scope path2).
  set (n := nextId st) in *.
  set (attribute := branch n JSXAttribute "attributes" sc
          [ leaf (S n) JSXIdentifier "name" (Some "data") None sc;
            branch (S (S n)) JSXExpressionContainer "value" sc
              [ leaf (S (S (S n))) Identifier "expression" (Some "staticQueryData") None sc ] ]).
  set (pushed := alterNode (λ p, Some (setKids (kids p ++ [attribute]) p))
                   (nid opening) (tree st)).
  set (declaration :=
         branch (S (S (S (S n)))) ImportDeclaration "body" (scope pushed)
           [ branch (S (S (S (S (S n))))) ImportDefaultSpecifier "specifiers" (scope pushed)
               [ leaf (S (S (S (S (S (S n)))))) Identifier "local" (Some "staticQueryData") None
                   (scope pushed) ];
             leaf (S (S (S (S (S (S (S n))))))) StringLiteral "source" None
               (Some (resultSource env queryHash)) (scope pushed) ]).
  exists (addLog (EvInject (S (S (S (S n)))))
            (setTree (setKids (declaration :: kids pushed) pushed)
               (setNextId (S (S (S (S (S (S (S (S n)))))))) st))),
    (setKids (kids opening ++ [attribute]) opening).
  split.
  { unfold nestedJSXVistor. rewrite Hty.
    rewrite (bool_decide_true (JSXIdentifier = JSXIdentifier)) by done. cbn [when].
    erewrite bind_run by apply read_run. erewrite bind_run by apply read_run.
    rewrite Hrefs, Hparent, Hname, Henv. cbn [isType]. rewrite Htyo.
    rewrite (bool_decide_true (Some _ = Some _)) by done.
    rewrite (bool_decide_false (JSXOpeningElement = JSXClosingElement)) by done.
    rewrite (bool_decide_true (JSXOpeningElement = JSXOpeningElement)) by done.
    cbn [andb negb when].
    erewrite bind_run; [|do 4 (erewrite bind_run by apply fresh_run); apply modify_run].
    unfold addImport.
    erewrite bind_run by apply read_run.
    do 4 (erewrite bind_run by apply fresh_run).
    erewrite bind_run by apply modify_run.
    rewrite modify_run. reflexivity. }
  split; [reflexivity|]. split; [|split].
  - assert (Hnid : nid pushed = nid (tree st)) by apply alterNode_nid.
    assert (Hdecl : findNode (nid opening) declaration = None).
    { apply findNode_None. unfold declaration, ids. simpl.
      rewrite !not_elem_of_cons. repeat split; try lia. apply not_elem_of_nil. }
    assert (Hpushed : findNode (nid opening) pushed
                      = Some (setKids (kids opening ++ [attribute]) opening)).
    { unfold pushed. erewrite findNode_alterNode; [reflexivity| |done|exact Hfind].
      intros c <-. eexists. split; [reflexivity|]. done. }
    rewrite findNode_eq in Hpushed. rewrite Hnid in Hpushed.
    destruct (decide (nid (tree st) = nid opening)); [done|].
    unfold pathNode. cbn [tree addLog setTree]. rewrite findNode_eq.
    cbn [nid setKids kids]. rewrite Hnid.
    destruct (decide (nid (tree st) = nid opening)); [done|].
    cbn [firstSome]. by rewrite Hdecl.
  - unfold getList. cbn [kids setKids]. rewrite filter_app, length_app.
    rewrite filter_cons. cbn [key attribute branch].
    destruct (decide _); [|done]. simpl. lia.
  - unfold lastAttributeIdentifier, getList. cbn [kids setKids].
    rewrite filter_app, filter_cons. cbn [key attribute branch].
    destruct (decide _); [|done]. rewrite filter_nil, last_snoc. done.
Qed.

End Rewrite.



Lemma injected_identifier_is_fixed_witness :
  ∃ st' opening',
    nestedJSXVistor Sample.production "17" Sample.StaticQuery_identifier Sample.attribute_query
      = Return () st'
    ∧ leadingImportLocal st' = Some "staticQueryData"
    ∧ pathNode st' 51 = Some opening'
    ∧ length (getList "attributes" opening') = 2
    ∧ lastAttributeIdentifier opening' = Some "staticQueryData".
Proof.
  assert (Hopening : ∃ opening, pathNode Sample.attribute_query 51 = Some opening) by
    (eexists; vm_compute; reflexivity).
  destruct Hopening as [opening Hopening].
  pose proof Hopening as Hcomputed. vm_compute in Hcomputed. injection Hcomputed as Hcomputed.
  destruct (injected_identifier_is_fixed (H := Sample.demo) Sample.production "17"
              Sample.attribute_query Sample.StaticQuery_identifier opening)
    as (st' & opening' & Hrun & Hlocal & Hfind & Hlen & Hlast).
  - reflexivity.
  - vm_compute. reflexivity.
  - reflexivity.
  - reflexivity.
  - vm_compute. reflexivity.
  - rewrite <-Hcomputed. vm_compute. reflexivity.
  - by rewrite <-Hcomputed.
  - rewrite <-Hcomputed. vm_compute. reflexivity.
  - rewrite <-Hcomputed. vm_compute. lia.
  - rewrite <-Hcomputed in Hfind, Hlen. exists st', opening'. repeat split; try done.
Defined.

(** C8, as the claim states it, fails on a file that declares
    [const staticQueryData = "mine"] above a [<StaticQuery>] element: the
    injector fires, and the name it imports is already bound in the file. *)
Lemma injected_identifier_collides :
  ∃ st' nm,
    nestedJSXVistor Sample.production "17" Sample.StaticQuery_identifier Sample.attribute_query
      = Return () st'
    ∧ leadingImportLocal st' = Some nm
    ∧ bound Sample.attribute_query nm.
Proof.
  eexists _, _. split; [vm_compute; reflexivity|]. split; [vm_compute; reflexivity|].
  exists 0. eexists _, _. split; [vm_compute; reflexivity|]. vm_compute. reflexivity.
Qed.

(** ** The order of sweeps and pruning *)

Section Deferred.
Context `{Externals}.








End Deferred.



(** * Further properties *)

(** ** Where the resolver of aliases ends *)

Section Aliases.

(** X1.  What [followVariableDeclarations] comes back with: a binding that
    is not declared as [x = y] with [y] a bare identifier (the end of the
    chain of aliases), or one of two faults: the [TypeError] of reading
    [path] of an [undefined] binding, and the [RangeError] of the exhausted
    call stack. *)
Theorem followVariableDeclarations_ends_the_chain stack st binding :
  match followVariableDeclarations stack st binding with
  | inr b' => aliasTarget st b' = None
  | inl e =>
      e = TypeError "Cannot read properties of undefined (reading 'path')"
      ∨ e = stackOverflow
  end.
Proof.
  revert binding. induction stack as [|stack IH]; intros binding; [by right|].
  destruct binding as [b|]; [|by left].
  rewrite followVariableDeclarations_step.
  destruct (aliasTarget st b) as [next|] eqn:Hstep; [apply IH|done].
Qed.

(** X2.  An alias of a name that no scope binds: the recursive call is made
    on [undefined], and reading its [path] throws a [TypeError]. *)
Theorem alias_of_undeclared_name_throws stack st b node :
  pathNode st (path b) = Some node →
  type node = VariableDeclarator →
  isType Identifier (get "id" node) = true →
  isType Identifier (get "init" node) = true →
  getBinding st (scope node) (nameOf (get "init" node)) = None →
  followVariableDeclarations (S (S stack)) st (Some b)
  = inl (TypeError "Cannot read properties of undefined (reading 'path')").
Proof.
  intros Hnode Hty Hid Hinit Hnone.
  cbn [followVariableDeclarations]. rewrite Hnode, Hty, Hid, Hinit, Hnone.
  by rewrite bool_decide_true.
Qed.

End Aliases.

Lemma followVariableDeclarations_ends_the_chain_witness :
  aliasTarget Sample.alias_chain (Sample.constBinding 11) = None
  ∧ (stackOverflow = TypeError "Cannot read properties of undefined (reading 'path')"
     ∨ stackOverflow = stackOverflow).
Proof.
  split.
  - exact (followVariableDeclarations_ends_the_chain 5 Sample.alias_chain
             (Some (Sample.constBinding 31))).
  - exact (followVariableDeclarations_ends_the_chain 2 Sample.alias_chain
             (Some (Sample.constBinding 31))).
Defined.

Lemma alias_of_undeclared_name_throws_witness :
  followVariableDeclarations 2 Sample.dangling_alias (Some (Sample.constBinding 21))
  = inl (TypeError "Cannot read properties of undefined (reading 'path')").
Proof.
  apply (alias_of_undeclared_name_throws 0 Sample.dangling_alias (Sample.constBinding 21)
           (branch 21 VariableDeclarator "declarations" 0
              [ Sample.ident 22 "id" "q"; Sample.ident 23 "init" "fallbackQuery" ]));
    vm_compute; reflexivity.
Defined.

(** ** The other shapes of import *)

Section Shapes.

Lemma findProperty_app nm before ps :
  passedOver nm before → findProperty nm (before ++ ps) = findProperty nm ps.
Proof.
  induction 1 as [|q before (w & Hw & Hne) _ IH]; [done|].
  cbn [app findProperty]. rewrite Hw, bool_decide_false by done. exact IH.
Qed.

Lemma getTagImport_import st tag b :
  getBinding st (scope tag) (name tag) = Some b →
  importsGatsby st b = true →
  getTagImport st tag = inr (pathNode st (path b)).
Proof.
  intros Hb Himp. unfold getTagImport. rewrite Hb.
  unfold importsGatsby in Himp. by rewrite Himp.
Qed.

Lemma getTagImport_require st tag b declarator :
  getBinding st (scope tag) (name tag) = Some b →
  importsGatsby st b = false →
  pathNode st (path b) = Some declarator →
  requiresGatsby declarator →
  getTagImport st tag =
    match get "id" declarator with
    | Some id =>
        if bool_decide (type id = ObjectPattern)
        then findProperty (name tag) (getList "properties" id)
        else inr (Some id)
    | None => inr None
    end.
Proof.
  intros Hb Himp Hd (Hty & init & arg & Hinit & Hcall & Hreq & Harg & Hval).
  unfold getTagImport. rewrite Hb. unfold importsGatsby in Himp. rewrite Himp, Hd.
  cbn [isType mbind option_bind]. rewrite Hty, Hinit. cbn [isType mbind option_bind from_option].
  rewrite Hcall, Hreq, Harg, Hval.
  rewrite !bool_decide_true by done. cbn [andb].
  destruct (get "id" declarator) as [id|]; cbn [isType]; done.
Qed.

(** X3.  A property access whose base identifier is bound by a namespace
    import ([import * as G from '...']): the tag is a query tag exactly when
    the import comes from [gatsby] and the accessed property is named
    [graphql]. *)
Theorem property_access_on_namespace_import st tag object b spec decl :
  type tag = MemberExpression →
  get "object" tag = Some object →
  getBinding st (scope object) (name object) = Some b →
  kind b = "module" →
  pathNode st (path b) = Some spec →
  type spec = ImportNamespaceSpecifier →
  parentPath st (path b) = Some decl →
  type decl = ImportDeclaration →
  isGraphqlTag st (Some tag) =
    inr (bool_decide (get "source" decl ≫= value = Some "gatsby")
         && bool_decide (nameOf (get "property" tag) = Some "graphql")).
Proof.
  intros Htag Hobj Hb Hkind Hspec Hty Hdecl Htd.
  unfold isGraphqlTag. cbn [isType mbind option_bind].
  rewrite Htag, bool_decide_true by done. rewrite Hobj.
  destruct (decide (get "source" decl ≫= value = Some "gatsby")) as [Hsrc|Hsrc].
  - rewrite (getTagImport_import _ _ b), Hspec; [|done|].
    + cbn [isType]. rewrite Hty, (bool_decide_true (_ = Some "gatsby")) by done.
      by rewrite (bool_decide_true (ImportNamespaceSpecifier = ImportNamespaceSpecifier)).
    + unfold importsGatsby. rewrite Hdecl. cbn [isType mbind option_bind].
      by rewrite !bool_decide_true.
  - assert (Hnone : getTagImport st object = inr None).
    { unfold getTagImport. rewrite Hb, Hdecl, Hspec. cbn [isType mbind option_bind].
      rewrite (bool_decide_false (_ = Some "gatsby")) by done. rewrite Hty.
      rewrite (bool_decide_false (ImportNamespaceSpecifier = VariableDeclarator)) by done.
      by rewrite !andb_false_r. }
    rewrite Hnone. unfold isGlobalIdentifier, isIdentifierNamed. rewrite Htag.
    rewrite (bool_decide_false (MemberExpression = Identifier)) by done.
    by rewrite (bool_decide_false (_ = Some "gatsby")).
Qed.

(** X4.  A property access whose base identifier is declared as
    [const g = require('gatsby')]: the tag is a query tag exactly when the
    accessed property is named [graphql]. *)
Theorem property_access_on_required_module st tag object b declarator id :
  type tag = MemberExpression →
  get "object" tag = Some object →
  getBinding st (scope object) (name object) = Some b →
  kind b ≠ "module" →
  pathNode st (path b) = Some declarator →
  requiresGatsby declarator →
  get "id" declarator = Some id →
  type id = Identifier →
  isGraphqlTag st (Some tag)
  = inr (bool_decide (nameOf (get "property" tag) = Some "graphql")).
Proof.
  intros Htag Hobj Hb Hkind Hd Hreq Hid Hty.
  unfold isGraphqlTag. cbn [isType mbind option_bind].
  rewrite Htag, bool_decide_true by done. rewrite Hobj.
  rewrite (getTagImport_require _ _ b declarator); [|done| |done..].
  - rewrite Hid, Hty. rewrite (bool_decide_false (Identifier = ObjectPattern)) by done.
    cbn [isType]. rewrite Hty.
    by rewrite (bool_decide_true (Identifier = Identifier)), orb_true_r.
  - unfold importsGatsby. by rewrite (bool_decide_false (kind b = _)).
Qed.

(** X5.  A tag declared by destructuring [require('gatsby')]: the property
    that backs it is the first one of the pattern whose value has the name
    of the tag, and the tag is a query tag exactly when the key of that
    property is [graphql], whatever the local name
    ([const { graphql: gql } = require('gatsby')]). *)
Theorem destructured_require_tag st tag b declarator id before p v after :
  type tag ≠ MemberExpression →
  getBinding st (scope tag) (name tag) = Some b →
  kind b ≠ "module" →
  pathNode st (path b) = Some declarator →
  requiresGatsby declarator →
  get "id" declarator = Some id →
  type id = ObjectPattern →
  getList "properties" id = before ++ p :: after →
  passedOver (name tag) before →
  get "value" p = Some v →
  name v = name tag →
  type p = ObjectProperty →
  getTagImport st tag = inr (Some p)
  ∧ isGraphqlTag st (Some tag) = inr (bool_decide (nameOf (get "key" p) = Some "graphql")).
Proof.
  intros Htag Hb Hkind Hd Hreq Hid Hty Hps Hbefore Hv Hname Hp.
  assert (Himport : getTagImport st tag = inr (Some p)).
  { rewrite (getTagImport_require _ _ b declarator); [|done| |done..].
    - rewrite Hid, Hty, bool_decide_true, Hps, findProperty_app by done.
      cbn [findProperty]. by rewrite Hv, bool_decide_true.
    - unfold importsGatsby. by rewrite (bool_decide_false (kind b = _)). }
  split; [done|].
  unfold isGraphqlTag. cbn [isType]. rewrite bool_decide_false by done.
  rewrite Himport. cbn [isType andb]. rewrite Hp.
  rewrite (bool_decide_false (ObjectProperty = ImportSpecifier)) by done.
  by rewrite (bool_decide_true (ObjectProperty = ObjectProperty)).
Qed.

(** X6.  The search through the pattern reads [value] of every element it
    meets.  An element without one (the rest element of
    [const { a, ...rest } = require('gatsby')]) that is met before a match
    makes [getTagImport], and with it [isGraphqlTag], throw a
    [TypeError]. *)
Theorem rest_element_in_pattern_throws st tag b declarator id before r after :
  type tag ≠ MemberExpression →
  getBinding st (scope tag) (name tag) = Some b →
  kind b ≠ "module" →
  pathNode st (path b) = Some declarator →
  requiresGatsby declarator →
  get "id" declarator = Some id →
  type id = ObjectPattern →
  getList "properties" id = before ++ r :: after →
  passedOver (name tag) before →
  get "value" r = None →
  let fault := TypeError "Cannot read properties of undefined (reading 'name')" in
  getTagImport st tag = inl fault
  ∧ isGraphqlTag st (Some tag) = inl fault.
Proof.
  intros Htag Hb Hkind Hd Hreq Hid Hty Hps Hbefore Hr fault.
  assert (Himport : getTagImport st tag = inl fault).
  { rewrite (getTagImport_require _ _ b declarator); [|done| |done..].
    - rewrite Hid, Hty, bool_decide_true, Hps, findProperty_app by done.
      cbn [findProperty]. by rewrite Hr.
    - unfold importsGatsby. by rewrite (bool_decide_false (kind b = _)). }
  split; [done|].
  unfold isGraphqlTag. cbn [isType]. rewrite bool_decide_false by done.
  by rewrite Himport.
Qed.

(** X7.  [getTagImport] answers with a path only for a name that is bound
    by an import from [gatsby] (the path is then the path of the binding) or
    by a declarator initialised with [require('gatsby')]. *)
Theorem getTagImport_is_from_gatsby st tag importPath :
  getTagImport st tag = inr (Some importPath) →
  ∃ b, getBinding st (scope tag) (name tag) = Some b
    ∧ ((importsGatsby st b = true ∧ pathNode st (path b) = Some importPath)
       ∨ (∃ declarator, pathNode st (path b) = Some declarator ∧ requiresGatsby declarator)).
Proof.
  unfold getTagImport.
  destruct (getBinding st (scope tag) (name tag)) as [b|] eqn:Hb; [|done].
  intros Hrun. exists b. split; [done|].
  fold (importsGatsby st b) in Hrun.
  destruct (importsGatsby st b); [left; split; congruence|right].
  destruct (pathNode st (path b)) as [declarator|]; [|done].
  exists declarator. split; [done|].
  cbn [isType mbind option_bind] in Hrun.
  destruct (decide (type declarator = VariableDeclarator)) as [Hty|Hty];
    [|by rewrite (bool_decide_false _ Hty) in Hrun].
  split; [done|].
  destruct (get "init" declarator) as [init|]; [|by rewrite andb_false_r in Hrun].
  cbn [isType mbind option_bind from_option] in Hrun.
  destruct (decide (type init = CallExpression)) as [Hcall|Hcall];
    [|by rewrite (bool_decide_false _ Hcall), andb_false_r in Hrun].
  destruct (isIdentifierNamed "require" (get "callee" init)) eqn:Hreq;
    [|by rewrite andb_false_r in Hrun].
  rewrite !bool_decide_true in Hrun by done. cbn [andb] in Hrun.
  destruct (head (getList "arguments" init)) as [arg|] eqn:Harg; [|done].
  destruct (decide (value arg = Some "gatsby")) as [Hval|Hval];
    [|by rewrite (bool_decide_false _ Hval) in Hrun].
  by exists init, arg.
Qed.

(** X8.  A call is taken for the hook only when the callee is named
    [useStaticQuery], or is a property access of that name, and the callee
    (or the object of the access) is bound by an import from [gatsby]. *)
Theorem isUseStaticQuery_is_gatsby_import st path_ :
  isUseStaticQuery st path_ = true →
  ∃ base b,
    ((get "callee" path_ = Some base ∧ name base = Some "useStaticQuery")
     ∨ (isType MemberExpression (get "callee" path_) = true
        ∧ get "callee" path_ ≫= get "object" = Some base
        ∧ nameOf (get "callee" path_ ≫= get "property") = Some "useStaticQuery"))
    ∧ getBinding st (scope base) (name base) = Some b
    ∧ importsGatsby st b = true.
Proof.
  assert (Href : ∀ n, referencesImport st n "gatsby" (Some "") = true →
            ∃ base b, n = Some base ∧ getBinding st (scope base) (name base) = Some b
                      ∧ importsGatsby st b = true).
  { intros [base|]; [|done]. cbn [referencesImport].
    destruct (negb _); [done|].
    destruct (getBinding st (scope base) (name base)) as [b|] eqn:Hb; [|done].
    intros Hrun. exists base, b. split; [done|]. split; [done|].
    unfold importsGatsby.
    destruct (bool_decide (kind b = "module")); [|done]. cbn [negb andb] in *.
    destruct (isType ImportDeclaration (parentPath st (path b))); [|done]. cbn [negb] in *.
    by destruct (bool_decide _). }
  unfold isUseStaticQuery. intros [Hrun|Hrun]%orb_true_iff.
  - apply andb_true_iff in Hrun as [[Hmem Hprop]%andb_true_iff Hrun].
    apply Href in Hrun as (base & b & Hbase & Hb & Himp).
    exists base, b. split; [|done]. right.
    by apply bool_decide_eq_true in Hprop.
  - apply andb_true_iff in Hrun as [Hname Hrun].
    apply Href in Hrun as (base & b & Hbase & Hb & Himp).
    exists base, b. split; [|done]. left. split; [done|].
    apply bool_decide_eq_true in Hname. by rewrite Hbase in Hname.
Qed.

End Shapes.

Lemma requiresGatsby_requireDeclarator ps : requiresGatsby (Sample.requireDeclarator ps).
Proof.
  split; [reflexivity|].
  exists (Sample.call 13 "init" (Sample.ident 14 "callee" "require")
            [ Sample.str 15 "arguments" "gatsby" ]), (Sample.str 15 "arguments" "gatsby").
  by vm_compute.
Defined.

Lemma property_access_on_namespace_import_witness :
  isGraphqlTag Sample.namespace_import (Some Sample.namespace_tag) = inr (true && true).
Proof.
  apply (property_access_on_namespace_import Sample.namespace_import Sample.namespace_tag
           (Sample.ident 31 "object" "Gatsby") (Sample.moduleBinding 12)
           (Sample.namespaceSpecifier 12 "Gatsby")
           (Sample.importDeclaration 10 [ Sample.namespaceSpecifier 12 "Gatsby" ] "gatsby"));
    vm_compute; reflexivity.
Defined.

Lemma property_access_on_required_module_witness :
  isGraphqlTag Sample.required_module (Some Sample.required_tag) = inr true.
Proof.
  apply (property_access_on_required_module Sample.required_module Sample.required_tag
           (Sample.ident 31 "object" "gatsby") (Sample.constBinding 11)
           (branch 11 VariableDeclarator "declarations" 0
              [ Sample.ident 12 "id" "gatsby"; Sample.requireCall 13 "gatsby" ])
           (Sample.ident 12 "id" "gatsby")); try (vm_compute; done).
  split; [reflexivity|].
  exists (Sample.requireCall 13 "gatsby"), (Sample.str 15 "arguments" "gatsby").
  by vm_compute.
Defined.

Lemma destructured_require_tag_witness :
  getTagImport Sample.require_renamed Sample.gql_tag
  = inr (Some (Sample.renamedProperty 25 "graphql" "gql"))
  ∧ isGraphqlTag Sample.require_renamed (Some Sample.gql_tag) = inr true.
Proof.
  apply (destructured_require_tag Sample.require_renamed Sample.gql_tag
           (Sample.constBinding 11) (Sample.requireDeclarator Sample.renamed_pattern)
           (branch 12 ObjectPattern "id" 0 Sample.renamed_pattern)
           [ Sample.objectProperty 20 "navigate" ] (Sample.renamedProperty 25 "graphql" "gql")
           (Sample.ident 27 "value" "gql") [ Sample.restElement 30 "rest" ]);
    try (vm_compute; done).
  - apply requiresGatsby_requireDeclarator.
  - repeat constructor. exists (Sample.ident 22 "value" "navigate"). by vm_compute.
Defined.

Lemma rest_element_in_pattern_throws_witness :
  let fault := TypeError "Cannot read properties of undefined (reading 'name')" in
  getTagImport Sample.require_renamed Sample.rest_tag = inl fault
  ∧ isGraphqlTag Sample.require_renamed (Some Sample.rest_tag) = inl fault.
Proof.
  apply (rest_element_in_pattern_throws Sample.require_renamed Sample.rest_tag
           (Sample.constBinding 11) (Sample.requireDeclarator Sample.renamed_pattern)
           (branch 12 ObjectPattern "id" 0 Sample.renamed_pattern)
           [ Sample.objectProperty 20 "navigate"; Sample.renamedProperty 25 "graphql" "gql" ]
           (Sample.restElement 30 "rest") []);
    try (vm_compute; done).
  - apply requiresGatsby_requireDeclarator.
  - repeat constructor.
    + exists (Sample.ident 22 "value" "navigate"). by vm_compute.
    + exists (Sample.ident 27 "value" "gql"). by vm_compute.
Defined.

Lemma getTagImport_is_from_gatsby_witness :
  ∃ b, getBinding Sample.two_specifiers (scope Sample.graphql_tag) (name Sample.graphql_tag)
       = Some b
    ∧ ((importsGatsby Sample.two_specifiers b = true
        ∧ pathNode Sample.two_specifiers (path b)
          = Some (Sample.importSpecifier 12 "graphql" "graphql"))
       ∨ (∃ declarator, pathNode Sample.two_specifiers (path b) = Some declarator
                        ∧ requiresGatsby declarator)).
Proof.
  apply (getTagImport_is_from_gatsby Sample.two_specifiers Sample.graphql_tag).
  vm_compute. reflexivity.
Defined.

Lemma isUseStaticQuery_is_gatsby_import_witness :
  ∃ base b,
    ((get "callee" Sample.hook_call = Some base ∧ name base = Some "useStaticQuery")
     ∨ (isType MemberExpression (get "callee" Sample.hook_call) = true
        ∧ get "callee" Sample.hook_call ≫= get "object" = Some base
        ∧ nameOf (get "callee" Sample.hook_call ≫= get "property") = Some "useStaticQuery"))
    ∧ getBinding Sample.hook_query (scope base) (name base) = Some b
    ∧ importsGatsby Sample.hook_query b = true.
Proof.
  apply (isUseStaticQuery_is_gatsby_import Sample.hook_query). vm_compute. reflexivity.
Defined.

(** ** Faults of the parser, and tags that are imported *)

Section ExtractionMore.
Context `{Externals}.

(** X9.  A query tag whose only segment the parser rejects: the parser's
    fault is handed on wrapped in a [GraphQLSyntaxError] that carries the
    text, the fault and the location of the segment, and both visitors throw
    it with the state untouched. *)
Theorem parser_fault_is_wrapped env st path_ q text err :
  isQueryTag st (get "tag" path_) →
  from_option (getList "quasis") [] (get "quasi" path_) = [q] →
  raw q = Some text →
  graphql_parse text = inl err →
  let fault := GraphQLSyntaxError text err (loc q) in
  getGraphQLTag st path_ = inl fault
  ∧ setImportForStaticQuery env path_ st = Throw fault st
  ∧ (type path_ = TaggedTemplateExpression →
     TaggedTemplateExpression_remaining path_ st = Throw fault st).
Proof.
  intros Hq Hquasis Hraw Hparse fault.
  assert (Hget : getGraphQLTag st path_ = inl fault).
  { rewrite getGraphQLTag_query by done. by rewrite Hquasis, Hraw, Hparse. }
  split; [done|]. split.
  - unfold setImportForStaticQuery. mrun. by rewrite Hget.
  - intros Hty. unfold TaggedTemplateExpression_remaining. mrun.
    rewrite bool_decide_true by done. by rewrite Hget.
Qed.

Lemma tagsToRemoveImportsFrom_add_run tag st :
  tagsToRemoveImportsFrom_add (Some tag) st
  = Return ()
      (if bool_decide (nid tag ∈ nid <$> tagsToRemoveImportsFrom st) then st
       else addLog (EvEnqueue (nid tag)) (setTags (tagsToRemoveImportsFrom st ++ [tag]) st)).
Proof. done. Qed.

(** X10.  A template whose tag is a query tag without being the global
    [graphql], on one segment that parses to a document with definitions.
    When a visitor is called on the template: the visitor of the third sweep
    adds the tag at the end of the set unless it is there already, puts the
    string literal of the decimal hash in the place of the template and
    returns; no binding is touched (the import stays until the drain).
    [setImportForStaticQuery] takes the same two steps and goes on, from
    that very state, with the two injectors sent through the nearest
    enclosing program or opening element; outside production and test that
    state is what it returns with; and whenever it returns, the set of tags
    is the one of that state. *)
Theorem imported_tag_is_substituted_and_enqueued env st path_ tag q text ast :
  type (tree st) = Program →
  pathNode st (nid path_) = Some path_ →
  type path_ = TaggedTemplateExpression →
  get "tag" path_ = Some tag →
  isGlobalIdentifier st (Some tag) = false →
  isGraphqlTag st (Some tag) = inr true →
  from_option (getList "quasis") [] (get "quasi" path_) = [q] →
  raw q = Some text →
  graphql_parse text = inr ast →
  definitions ast ≠ [] →
  let hash := murmurhash text 0 in
  ∃ st1 literal parent_,
    pathNode st1 (nid path_) = Some literal
    ∧ type literal = StringLiteral
    ∧ value literal = Some (pretty hash)
    ∧ kids literal = []
    ∧ tagsToRemoveImportsFrom st1
      = (if bool_decide (nid tag ∈ nid <$> tagsToRemoveImportsFrom st)
         then tagsToRemoveImportsFrom st else tagsToRemoveImportsFrom st ++ [tag])
    ∧ scopes st1 = scopes st
    ∧ log st1
      = log st
        ++ (if bool_decide (nid tag ∈ nid <$> tagsToRemoveImportsFrom st)
            then [] else [EvEnqueue (nid tag)])
        ++ [EvReplace (nid path_)]
    ∧ TaggedTemplateExpression_remaining path_ st = Return () st1
    ∧ type parent_ ∈ [Program; JSXOpeningElement]
    ∧ head (filter (λ a, type a ∈ [Program; JSXOpeningElement])
              (default [] (ancestors (nid path_) (tree st1))))
      = Some parent_
    ∧ setImportForStaticQuery env path_ st
      = (traverse (nid parent_) (nestedJSXVistor env (pretty hash));;
         traverse (nid parent_) (nestedHookVisitor env (pretty hash))) st1
    ∧ (productionLike env = false → setImportForStaticQuery env path_ st = Return () st1)
    ∧ (∀ st', setImportForStaticQuery env path_ st = Return () st' →
         tagsToRemoveImportsFrom st' = tagsToRemoveImportsFrom st1).
Proof.
  intros Hprogram Hfind Hty Htag Hglobal Hquery Hquasis Hraw Hparse Hdefs hash.
  assert (Hget : getGraphQLTag st path_ = inr (GraphQLTag ast text hash false)).
  { rewrite getGraphQLTag_query by (right; by rewrite Htag).
    rewrite Hquasis, Hraw, Hparse, Htag, Hglobal.
    unfold try_catch_rethrow. rewrite bool_decide_false; [done|].
    by destruct (definitions ast). }
  set (st0 := if bool_decide (nid tag ∈ nid <$> tagsToRemoveImportsFrom st) then st
              else addLog (EvEnqueue (nid tag))
                     (setTags (tagsToRemoveImportsFrom st ++ [tag]) st)).
  assert (Hadd : when (negb false) (tagsToRemoveImportsFrom_add (get "tag" path_)) st
                 = Return () st0).
  { rewrite Htag. apply tagsToRemoveImportsFrom_add_run. }
  assert (Hst0 : tree st0 = tree st ∧ scopes st0 = scopes st
                 ∧ tagsToRemoveImportsFrom st0
                   = (if bool_decide (nid tag ∈ nid <$> tagsToRemoveImportsFrom st)
                      then tagsToRemoveImportsFrom st else tagsToRemoveImportsFrom st ++ [tag])
                 ∧ log st0 = log st ++ (if bool_decide (nid tag ∈ nid <$> tagsToRemoveImportsFrom st)
                                        then [] else [EvEnqueue (nid tag)])).
  { unfold st0. destruct (bool_decide _); [|done]. by rewrite app_nil_r. }
  destruct Hst0 as (Htree0 & Hscopes0 & Htags0 & Hlog0).
  destruct (setImportForStaticQuery_run env st st0 path_ ast text hash false)
    as (st1 & literal & parent_ & Hrun & Hlit & Htyl & Hval & Hkids & Htags & Hscopes & Hlog
        & Hparent & Hnearest & Hset); try done.
  exists st1, literal, parent_. do 4 (split; [done|]).
  split; [by rewrite Htags|]. split; [by rewrite Hscopes|].
  split; [by rewrite Hlog, Hlog0, <-app_assoc|]. split.
  { unfold TaggedTemplateExpression_remaining.
    rewrite bool_decide_true by done. cbn [when].
    etransitivity; [eapply bind_run; unfold readE; by rewrite Hget|]. cbv zeta.
    etransitivity; [eapply bind_run; exact Hadd|]. exact Hrun. }
  split; [done|]. split; [done|]. split; [done|]. split.
  - intros Henv. rewrite Hset. by apply sleeping_injectors_return.
  - intros st'. rewrite Hset. apply injectors_keep_tags.
Qed.

End ExtractionMore.

Lemma parser_fault_is_wrapped_witness :
  let fault :=
    GraphQLSyntaxError "{ a " (ParserError "Syntax Error: Unexpected Name")
      (Some {| loc_start := Sample.at_ 1 0; loc_end := Sample.at_ 1 4 |}) in
  getGraphQLTag Sample.broken_query_state Sample.broken_query = inl fault
  ∧ setImportForStaticQuery Sample.production Sample.broken_query Sample.broken_query_state
    = Throw fault Sample.broken_query_state
  ∧ (type Sample.broken_query = TaggedTemplateExpression →
     TaggedTemplateExpression_remaining Sample.broken_query Sample.broken_query_state
     = Throw fault Sample.broken_query_state).
Proof.
  apply (parser_fault_is_wrapped (H := Sample.demo) Sample.production Sample.broken_query_state
           Sample.broken_query
           (Sample.quasi_ 22 "{ a "
              (Some {| loc_start := Sample.at_ 1 0; loc_end := Sample.at_ 1 4 |}))
           "{ a " (ParserError "Syntax Error: Unexpected Name")).
  - left. vm_compute. reflexivity.
  - reflexivity.
  - reflexivity.
  - reflexivity.
Defined.

Lemma imported_tag_is_substituted_and_enqueued_witness :
  let st := Sample.imported_query in
  let path_ := Sample.imported_template in
  let tag := Sample.ident 39 "tag" "graphql" in
  ∃ st1 literal parent_,
    pathNode st1 (nid path_) = Some literal
    ∧ type literal = StringLiteral
    ∧ value literal = Some (pretty 5%N)
    ∧ kids literal = []
    ∧ tagsToRemoveImportsFrom st1 = [tag]
    ∧ scopes st1 = scopes st
    ∧ log st1 = [EvEnqueue (nid tag); EvReplace (nid path_)]
    ∧ TaggedTemplateExpression_remaining path_ st = Return () st1
    ∧ type parent_ ∈ [Program; JSXOpeningElement]
    ∧ head (filter (λ a, type a ∈ [Program; JSXOpeningElement])
              (default [] (ancestors (nid path_) (tree st1))))
      = Some parent_
    ∧ setImportForStaticQuery Sample.production path_ st
      = (traverse (nid parent_) (nestedJSXVistor Sample.production (pretty 5%N));;
         traverse (nid parent_) (nestedHookVisitor Sample.production (pretty 5%N))) st1
    ∧ (productionLike Sample.production = false →
       setImportForStaticQuery Sample.production path_ st = Return () st1)
    ∧ (∀ st', setImportForStaticQuery Sample.production path_ st = Return () st' →
         tagsToRemoveImportsFrom st' = tagsToRemoveImportsFrom st1).
Proof.
  intros st path_ tag.
  apply (imported_tag_is_substituted_and_enqueued (H := Sample.demo) Sample.production st
           path_ tag
           (Sample.quasi_ 42 "{ a }"
              (Some {| loc_start := Sample.at_ 1 0; loc_end := Sample.at_ 1 5 |}))
           "{ a }" {| definitions := ["query"] |}); try (vm_compute; done).
Defined.

(** ** What the pruner leaves, and what it unbinds *)

Section PruningMore.

Lemma removeImport_run tag ident importPath st :
  tagBase tag = Some ident →
  getTagImport st ident = inr (Some importPath) →
  removeImport tag st =
    (let by_ := ByImportPruner (nid tag) in
     let parent_ := parentPath st (nid importPath) in
     when (isType ImportSpecifier (Some importPath))
       (if bool_decide (length (from_option (getList "specifiers") [] parent_) = 1)
        then from_option (remove by_) (mret ()) parent_
        else remove by_ importPath);;
     when (isType ObjectProperty (Some importPath))
       (if bool_decide (length (from_option (getList "properties") [] parent_) = 1)
        then removeVariableDeclaration by_ importPath
        else remove by_ importPath);;
     when (isType Identifier (Some importPath))
       (removeVariableDeclaration by_ importPath))
    (addLog (EvPrune (nid tag)) st).
Proof.
  intros Hident Himport. unfold removeImport, tagBase in *.
  erewrite bind_run by apply modify_run. cbv zeta. rewrite Hident.
  erewrite bind_run; [|unfold readE].
  2:{ change (getTagImport (addLog _ st) ident) with (getTagImport st ident).
      by rewrite Himport. }
  etransitivity; [apply bind_run, read_run|]. reflexivity.
Qed.

Lemma removeImport_without_import tag ident st :
  tagBase tag = Some ident →
  getTagImport st ident = inr None →
  removeImport tag st = Return () (addLog (EvPrune (nid tag)) st).
Proof.
  intros Hident Himport. unfold removeImport, tagBase in *.
  erewrite bind_run by apply modify_run. cbv zeta. rewrite Hident.
  erewrite bind_run; [|unfold readE].
  2:{ change (getTagImport (addLog _ st) ident) with (getTagImport st ident).
      by rewrite Himport. }
  done.
Qed.

(** X11.  [removeImport] removes nothing when the tag has no import from
    [gatsby], and nothing when the import is of another shape than a named
    specifier, a destructured property or a plain declarator (a namespace
    import, a default import): tree and scopes are as they were. *)
Theorem removeImport_leaves_other_imports st tag ident r :
  tagBase tag = Some ident →
  getTagImport st ident = inr r →
  (∀ importPath, r = Some importPath →
     type importPath ∉ [ImportSpecifier; ObjectProperty; Identifier]) →
  ∃ st', removeImport tag st = Return () st'
    ∧ tree st' = tree st
    ∧ scopes st' = scopes st
    ∧ log st' = log st ++ [EvPrune (nid tag)].
Proof.
  intros Hident Himport Hother. exists (addLog (EvPrune (nid tag)) st).
  split; [|done]. destruct r as [importPath|].
  - rewrite (removeImport_run _ _ _ _ Hident Himport). cbv zeta. cbn [isType].
    specialize (Hother _ eq_refl).
    rewrite !not_elem_of_cons in Hother. destruct Hother as (Hs & Hp & Hi & _).
    rewrite (bool_decide_false (type importPath = ImportSpecifier)) by done.
    rewrite (bool_decide_false (type importPath = ObjectProperty)) by done.
    by rewrite (bool_decide_false (type importPath = Identifier)).
  - by apply (removeImport_without_import _ ident).
Qed.

(** X12.  A tag [g.graphql] with [const g = require('gatsby')]: the import
    construct is the identifier [g] of the declarator, and [removeImport]
    removes the whole variable declaration that encloses it, in one
    removal. *)
Theorem removeImport_of_required_module st tag ident importPath declaration :
  NoDup (ids (tree st)) →
  type (tree st) = Program →
  tagBase tag = Some ident →
  getTagImport st ident = inr (Some importPath) →
  type importPath = Identifier →
  findParent VariableDeclaration (nid importPath) st = Some declaration →
  ∃ st', removeImport tag st = Return () st'
    ∧ pathNode st' (nid declaration) = None
    ∧ ∃ removed, log st' = log st ++ [EvPrune (nid tag);
                                       EvRemove (ByImportPruner (nid tag)) removed].
Proof.
  intros Hnd Hprogram Hident Himport Hty Hd.
  set (st0 := addLog (EvPrune (nid tag)) st).
  assert (Hroot : nid (tree st0) ≠ nid declaration).
  { unfold findParent in Hd.
    destruct (ancestors (nid importPath) (tree st)) as [up|] eqn:Hup; [|done].
    cbn [mbind option_bind] in Hd.
    apply head_Some_elem_of, list_elem_of_filter in Hd as [Hdty Hdin].
    eapply (ancestor_is_not_root st); [done|done|done|congruence]. }
  destruct (remove_gone (ByImportPruner (nid tag)) declaration st0 Hroot)
    as (st' & Hrm & Hgone).
  exists st'. split; [|split; [done|]].
  - rewrite (removeImport_run _ _ _ _ Hident Himport). cbv zeta. cbn [isType].
    rewrite Hty.
    rewrite (bool_decide_false (Identifier = ImportSpecifier)) by done.
    rewrite (bool_decide_false (Identifier = ObjectProperty)) by done.
    rewrite (bool_decide_true (Identifier = Identifier)) by done.
    cbn [when]. erewrite bind_run by reflexivity. erewrite bind_run by reflexivity.
    unfold removeVariableDeclaration. erewrite bind_run by apply read_run.
    change (findParent VariableDeclaration (nid importPath) (addLog _ st))
      with (findParent VariableDeclaration (nid importPath) st).
    rewrite Hd. exact Hrm.
  - unfold remove in Hrm. erewrite bind_run in Hrm by apply read_run.
    rewrite modify_run in Hrm. injection Hrm as <-. eexists.
    cbn [log addLog setTree removeFromScope setScopes st0]. by rewrite <-app_assoc.
Qed.

Lemma getBindingIdentifiers_eq n :
  getBindingIdentifiers n =
    match type n with
    | Identifier => from_option (λ x, [x]) [] (name n)
    | t =>
        flat_map (λ c, if bool_decide (key c ∈ bindingKeys t)
                       then getBindingIdentifiers c else [])
          (kids n)
    end.
Proof. by destruct n. Qed.

Lemma getBindingIdentifiers_kid n c nm :
  type n ≠ Identifier →
  c ∈ kids n →
  key c ∈ bindingKeys (type n) →
  nm ∈ getBindingIdentifiers c →
  nm ∈ getBindingIdentifiers n.
Proof.
  intros Hty Hc Hkey Hnm. rewrite getBindingIdentifiers_eq.
  assert (Hin : nm ∈ flat_map (λ c, if bool_decide (key c ∈ bindingKeys (type n))
                                    then getBindingIdentifiers c else []) (kids n)).
  { apply list_elem_of_In, in_flat_map. exists c.
    split; [by apply list_elem_of_In|]. rewrite bool_decide_true by done.
    by apply list_elem_of_In. }
  by destruct (type n).
Qed.

Lemma removeBindingFrom_rooted fuel s : ∀ sc s' nm',
  rooted sc s → rooted (removeBindingFrom fuel sc s' nm') s.
Proof.
  induction fuel as [|fuel IH]; intros sc s' nm' Hr; [done|].
  cbn [removeBindingFrom]. destruct (sc !! s') as [r'|] eqn:Hs'; [|done].
  destruct (bindings r' !! nm') as [b|].
  - destruct Hr as (r & Hs & Hp). destruct (decide (s' = s)) as [->|Hne].
    + eexists. rewrite lookup_insert_eq. split; [done|]. cbn [parent]. congruence.
    + exists r. by rewrite lookup_insert_ne.
  - destruct (parent r'); [by apply IH|done].
Qed.

Lemma removeBindingFrom_unbound fuel s nm : ∀ sc s' nm',
  unboundAt sc s nm → unboundAt (removeBindingFrom fuel sc s' nm') s nm.
Proof.
  induction fuel as [|fuel IH]; intros sc s' nm' Hu; [done|].
  cbn [removeBindingFrom]. destruct (sc !! s') as [r'|] eqn:Hs'; [|done].
  destruct (bindings r' !! nm') as [b|].
  - destruct Hu as (r & Hs & Hp & Hn). destruct (decide (s' = s)) as [->|Hne].
    + eexists. rewrite lookup_insert_eq. split; [done|]. cbn [parent bindings].
      split; [congruence|]. assert (r' = r) as -> by congruence.
      destruct (decide (nm' = nm)) as [->|Hnm];
        [apply lookup_delete_eq|by rewrite lookup_delete_ne].
    + exists r. by rewrite lookup_insert_ne.
  - destruct (parent r'); [by apply IH|done].
Qed.

Lemma removeBindingFrom_here fuel sc s nm :
  rooted sc s → unboundAt (removeBindingFrom (S fuel) sc s nm) s nm.
Proof.
  intros (r & Hs & Hp). cbn [removeBindingFrom]. rewrite Hs.
  destruct (bindings r !! nm) as [b|] eqn:Hb.
  - eexists. rewrite lookup_insert_eq. split; [done|]. cbn [parent bindings].
    split; [done|]. apply lookup_delete_eq.
  - rewrite Hp. by exists r.
Qed.

Lemma removeFromScope_keeps_unbound n st s nm :
  unboundAt (scopes st) s nm → unboundAt (scopes (removeFromScope n st)) s nm.
Proof.
  intros Hu. unfold removeFromScope. cbn [scopes setScopes].
  induction (getBindingIdentifiers n) as [|x l IH]; [done|].
  cbn [foldr]. by apply removeBindingFrom_unbound.
Qed.

(** Removing a declaration of the program scope unbinds every name it
    declares. *)
Lemma removeFromScope_unbinds n st nm :
  rooted (scopes st) (scope n) →
  nm ∈ getBindingIdentifiers n →
  unboundAt (scopes (removeFromScope n st)) (scope n) nm.
Proof.
  intros Hr. unfold removeFromScope. cbn [scopes setScopes].
  induction (getBindingIdentifiers n) as [|x l IH]; [by intros ?%elem_of_nil|].
  cbn [foldr]. intros [->|Hin]%elem_of_cons.
  - apply removeBindingFrom_here.
    clear IH. induction l as [|y l IH]; [done|].
    cbn [foldr]. by apply removeBindingFrom_rooted.
  - by apply removeBindingFrom_unbound, IH.
Qed.

Lemma getBinding_unbound st s nm :
  unboundAt (scopes st) s nm → getBinding st s (Some nm) = None.
Proof.
  intros (r & Hs & Hp & Hn). unfold getBinding. cbn [getBindingFrom].
  by rewrite Hs, Hn, Hp.
Qed.

Lemma remove_scopes by_ n st :
  key n ≠ "declaration" →
  ∃ st', remove by_ n st = Return () st'
    ∧ scopes st' = scopes (removeFromScope n (removeFromScope n st)).
Proof.
  intros Hkey. unfold remove. erewrite bind_run by apply read_run.
  rewrite modify_run. eexists. split; [reflexivity|].
  rewrite bool_decide_false by done. cbn [andb].
  by destruct (parentPath st (nid n)).
Qed.

(** X13.  A tag backed by a named specifier of an import declaration of
    the program scope: once [removeImport] has run for it, the local name of
    the specifier is bound no more, and a later run of [removeImport] for
    any tag of that name in that scope (another template with the same tag)
    changes neither the tree nor the scopes. *)
Theorem pruned_import_is_unbound st tag ident importPath decl local_ nm :
  tagBase tag = Some ident →
  getTagImport st ident = inr (Some importPath) →
  parentPath st (nid importPath) = Some decl →
  type importPath = ImportSpecifier →
  type decl = ImportDeclaration →
  key decl = "body" →
  importPath ∈ getList "specifiers" decl →
  get "local" importPath = Some local_ →
  type local_ = Identifier →
  name local_ = Some nm →
  scope decl = scope importPath →
  rooted (scopes st) (scope importPath) →
  ∃ st',
    removeImport tag st = Return () st'
    ∧ getBinding st' (scope importPath) (Some nm) = None
    ∧ ∀ tag2 ident2,
        tagBase tag2 = Some ident2 →
        name ident2 = Some nm →
        scope ident2 = scope importPath →
        ∃ st'', removeImport tag2 st' = Return () st''
          ∧ tree st'' = tree st'
          ∧ scopes st'' = scopes st'.
Proof.
  intros Hident Himport Hparent Htys Htyd Hkeyd Hin Hlocal Htyl Hnm Hscope Hrooted.
  destruct (getList_key _ _ _ Hin) as [Hkeys Hkid].
  set (st0 := addLog (EvPrune (nid tag)) st).
  set (removed := if bool_decide (length (getList "specifiers" decl) = 1)
                  then decl else importPath).
  assert (Hrkey : key removed ≠ "declaration").
  { unfold removed. destruct (bool_decide _); congruence. }
  assert (Hrscope : scope removed = scope importPath).
  { unfold removed. by destruct (bool_decide _). }
  assert (Hspec : nm ∈ getBindingIdentifiers importPath).
  { apply (getBindingIdentifiers_kid _ local_); [congruence| |rewrite Htys|].
    - unfold get in Hlocal. by apply head_Some_elem_of, list_elem_of_filter in Hlocal as [_ ?].
    - unfold get in Hlocal. apply head_Some_elem_of, list_elem_of_filter in Hlocal as [-> _].
      cbn [bindingKeys]. repeat constructor.
    - rewrite getBindingIdentifiers_eq, Htyl, Hnm. cbn [from_option]. left. }
  assert (Hnames : nm ∈ getBindingIdentifiers removed).
  { unfold removed. destruct (bool_decide _); [|done].
    apply (getBindingIdentifiers_kid _ importPath); [congruence|done| |done].
    rewrite Htyd, Hkeys. cbn [bindingKeys]. repeat constructor. }
  destruct (remove_scopes (ByImportPruner (nid tag)) removed st0 Hrkey)
    as (st' & Hrm & Hscopes).
  assert (Hunbound : unboundAt (scopes st') (scope importPath) nm).
  { rewrite Hscopes, <-Hrscope. apply removeFromScope_keeps_unbound.
    apply removeFromScope_unbinds; [by rewrite Hrscope|done]. }
  exists st'. split; [|split; [by apply getBinding_unbound|]].
  - rewrite (removeImport_run _ _ _ _ Hident Himport). cbv zeta.
    rewrite Hparent. cbn [isType from_option]. rewrite Htys.
    rewrite (bool_decide_true (ImportSpecifier = ImportSpecifier)) by done.
    rewrite (bool_decide_false (ImportSpecifier = ObjectProperty)) by done.
    rewrite (bool_decide_false (ImportSpecifier = Identifier)) by done.
    cbn [when]. fold st0.
    erewrite bind_run; [by erewrite bind_run by reflexivity|].
    unfold removed in Hrm. by destruct (bool_decide _).
  - intros tag2 ident2 Hident2 Hnm2 Hscope2. eexists.
    split; [apply (removeImport_without_import _ ident2); [done|]|done].
    unfold getTagImport. rewrite Hscope2, Hnm2.
    by rewrite (getBinding_unbound _ _ _ Hunbound).
Qed.

End PruningMore.

Lemma removeImport_leaves_other_imports_witness :
  ∃ st', removeImport Sample.namespace_tag Sample.namespace_import = Return () st'
    ∧ tree st' = tree Sample.namespace_import
    ∧ scopes st' = scopes Sample.namespace_import
    ∧ log st' = log Sample.namespace_import ++ [EvPrune (nid Sample.namespace_tag)].
Proof.
  apply (removeImport_leaves_other_imports Sample.namespace_import Sample.namespace_tag
           (Sample.ident 31 "object" "Gatsby") (Some (Sample.namespaceSpecifier 12 "Gatsby"))).
  - reflexivity.
  - vm_compute. reflexivity.
  - intros importPath [= <-].
    rewrite !not_elem_of_cons. repeat split; try discriminate. apply not_elem_of_nil.
Defined.

Lemma NoDup_ids_required_module : NoDup (ids (tree Sample.required_module)).
Proof. apply (bool_decide_unpack _ (dec := NoDup_dec _)). vm_compute. exact I. Defined.

Lemma removeImport_of_required_module_witness :
  ∃ st', removeImport Sample.required_tag Sample.required_module = Return () st'
    ∧ pathNode st' 10 = None
    ∧ ∃ removed, log st' = log Sample.required_module
                           ++ [EvPrune (nid Sample.required_tag);
                               EvRemove (ByImportPruner (nid Sample.required_tag)) removed].
Proof.
  apply (removeImport_of_required_module Sample.required_module Sample.required_tag
           (Sample.ident 31 "object" "gatsby") (Sample.ident 12 "id" "gatsby")
           (Sample.constDeclaration 10 "gatsby" (Sample.requireCall 13 "gatsby"))).
  - exact NoDup_ids_required_module.
  - reflexivity.
  - reflexivity.
  - vm_compute. reflexivity.
  - reflexivity.
  - vm_compute. reflexivity.
Defined.

Lemma pruned_import_is_unbound_witness :
  ∃ st',
    removeImport Sample.graphql_tag Sample.two_specifiers = Return () st'
    ∧ getBinding st' 0 (Some "graphql") = None
    ∧ ∀ tag2 ident2,
        tagBase tag2 = Some ident2 →
        name ident2 = Some "graphql" →
        scope ident2 = 0 →
        ∃ st'', removeImport tag2 st' = Return () st''
          ∧ tree st'' = tree st'
          ∧ scopes st'' = scopes st'.
Proof.
  apply (pruned_import_is_unbound Sample.two_specifiers Sample.graphql_tag Sample.graphql_tag
           (Sample.importSpecifier 12 "graphql" "graphql")
           (Sample.importDeclaration 10
              [ Sample.importSpecifier 12 "graphql" "graphql";
                Sample.importSpecifier 15 "Link" "Link" ] "gatsby")
           (Sample.ident 14 "local" "graphql") "graphql"); try (vm_compute; done).
  - vm_compute. left.
  - eexists. split; vm_compute; reflexivity.
Defined.

(** ** Files without queries *)

Section Untouched.

Lemma untouched_ret {A} (a : A) st : untouched (mret a) st.
Proof. done. Qed.

Lemma untouched_throw {A} e st : untouched (throw e : M A) st.
Proof. done. Qed.

Lemma untouched_read {A} (f : State → A) st : untouched (read f) st.
Proof. done. Qed.

Lemma untouched_readE {A} (f : State → Error + A) st : untouched (readE f) st.
Proof. unfold untouched, readE, liftE. by destruct (f st). Qed.

Lemma untouched_bind {A B} (m : M A) (k : A → M B) st :
  untouched m st → (∀ a, m st = Return a st → untouched (k a) st) → untouched (m ≫= k) st.
Proof.
  unfold untouched, mbind, M_bind. destruct (m st) as [a st1|e st1]; [|done].
  intros -> Hk. by apply Hk.
Qed.

Lemma untouched_when b m st : untouched m st → untouched (when b m) st.
Proof. by destruct b. Qed.

Lemma untouched_forEach {A} (f : A → M unit) l st :
  (∀ x, untouched (f x) st) → untouched (forEach f l) st.
Proof.
  intros Hf. induction l as [|x l IH]; [done|].
  cbn [forEach]. apply untouched_bind; [apply Hf|by intros _ _].
Qed.

(** A visitor is handed the nodes that are under their paths at the time. *)
Lemma untouched_traverse root visitor st :
  (∀ n, pathNode st (nid n) = Some n → untouched (visitor n) st) →
  untouched (traverse root visitor) st.
Proof.
  intros Hv. unfold traverse. apply untouched_bind; [done|].
  intros [rn|] _; [|done].
  apply untouched_forEach. intros i. apply untouched_bind; [done|].
  intros [nd|] [= Hnd]; [|done]. apply Hv.
  by rewrite (findNode_nid _ _ _ Hnd).
Qed.

End Untouched.

Ltac untouched_step :=
  lazymatch goal with
  | |- untouched (mret _) _ => apply untouched_ret
  | |- untouched (throw _) _ => apply untouched_throw
  | |- untouched (read _) _ => apply untouched_read
  | |- untouched (readE _) _ => apply untouched_readE
  | |- untouched (when _ _) _ => apply untouched_when
  | |- untouched (mbind _ _) _ => apply untouched_bind; [|intros ? _]
  | |- untouched (traverse _ _) _ => apply untouched_traverse; intros ? ?
  | |- untouched (match ?x with _ => _ end) _ => destruct x
  end.

Section NoQueries.
Context `{Externals}.

Lemma noQueries_found st n :
  noQueries st = true →
  pathNode st (nid n) = Some n →
  type n = TaggedTemplateExpression →
  getGraphQLTag st n = inr EmptyTag.
Proof.
  intros Hno Hn Hty. unfold noQueries in Hno. rewrite forallb_forall in Hno.
  assert (Hin : nid n ∈ ids (tree st)).
  { destruct (decide (nid n ∈ ids (tree st))) as [|Hnot]; [done|].
    apply findNode_None in Hnot. unfold pathNode in Hn. congruence. }
  apply list_elem_of_In, Hno in Hin. rewrite Hn, bool_decide_true in Hin by done.
  by destruct (getGraphQLTag st n) as [|[]].
Qed.

Lemma template_visitors_pass env st n :
  noQueries st = true →
  pathNode st (nid n) = Some n →
  untouched (TaggedTemplateExpression_visitor env n) st
  ∧ untouched (TaggedTemplateExpression_remaining n) st.
Proof.
  intros Hno Hn.
  unfold TaggedTemplateExpression_visitor, TaggedTemplateExpression_remaining,
    setImportForStaticQuery.
  destruct (decide (type n = TaggedTemplateExpression)) as [Hty|Hty];
    [|by rewrite !bool_decide_false].
  rewrite !bool_decide_true by done. cbn [when].
  split; apply untouched_bind; try apply untouched_readE;
    intros r; unfold readE; rewrite (noQueries_found _ _ Hno Hn Hty); by intros [= <-].
Qed.

(** X14.  A file none of whose tagged templates is a query (the file may
    hold templates of other tags, hook calls, [<StaticQuery>] elements and
    aliases): if the pass comes back, by returning or by throwing, the tree,
    the scopes and the set of tags are what they were. *)
Theorem file_without_queries_is_untouched env stack st :
  noQueries st = true →
  tagsToRemoveImportsFrom st = [] →
  untouched (Program_visitor env stack) st.
Proof.
  intros Hno Htags.
  unfold Program_visitor. apply untouched_bind.
  - unfold sweeps, sweep_StaticQuery, sweep_useStaticQuery, sweep_remaining. cbv zeta.
    repeat first [ untouched_step | by apply template_visitors_pass ].
  - intros _ _. apply untouched_bind; [done|]. intros tags [= <-]. by rewrite Htags.
Qed.




End NoQueries.

Lemma file_without_queries_is_untouched_witness :
  untouched (Program_visitor Sample.production 10) Sample.plain_module.
Proof.
  apply (file_without_queries_is_untouched (H := Sample.demo) Sample.production 10
           Sample.plain_module); reflexivity.
Defined.



(** ** Outside production and test *)

Section Development.
Context `{Externals}.

#[global] Instance substitutionEvent_substituting : Substituting (logs substitutionEvent).
Proof.
  split; [apply _|..].
  - intros i n st a st' [= _ <-]. by eapply logs_one; [reflexivity|].
  - intros [t|] st a st'; unfold tagsToRemoveImportsFrom_add; mrun; intros [= _ <-].
    + case_bool_decide; [by apply logs_none|]. by eapply logs_one; [reflexivity|].
    + by apply logs_none.
Qed.

#[global] Instance sameScopes_preorder : PreOrder sameScopes.
Proof.
  split; [done|]. intros s1 s2 s3 [H1 H1'] [H2 H2']. split; congruence.
Qed.

#[global] Instance sameScopes_substituting : Substituting sameScopes.
Proof.
  split; [apply _|..].
  - by intros i n st a st' [= _ <-].
  - intros [t|] st a st'; unfold tagsToRemoveImportsFrom_add; mrun; intros [= _ <-]; [|done].
    by case_bool_decide.
Qed.

Section Invariant.
Context (R : State → State → Prop) `{!Substituting R}.
Context (env : Env) (Henv : productionLike env = false).

Lemma sleeping_injectors_hold queryHash path2 :
  holds R (nestedJSXVistor env queryHash path2)
  ∧ holds R (nestedHookVisitor env queryHash path2).
Proof.
  split; intros st a st' Hrun;
    [rewrite (proj1 (injectors_sleep env queryHash path2 st Henv)) in Hrun
    |rewrite (proj2 (injectors_sleep env queryHash path2 st Henv)) in Hrun];
    injection Hrun as _ <-; reflexivity.
Qed.

Ltac substituting_step :=
  lazymatch goal with
  | |- holds _ (replaceWith _ _) => apply substituting_replaceWith
  | |- holds _ (tagsToRemoveImportsFrom_add _) => apply substituting_add
  | |- holds _ (nestedJSXVistor _ _ _) => apply sleeping_injectors_hold
  | |- holds _ (nestedHookVisitor _ _ _) => apply sleeping_injectors_hold
  | |- holds _ (setImportForStaticQuery _ _) => unfold setImportForStaticQuery; cbv zeta
  | |- holds _ (TaggedTemplateExpression_visitor _ _) =>
      unfold TaggedTemplateExpression_visitor
  | |- holds _ (TaggedTemplateExpression_remaining _) =>
      unfold TaggedTemplateExpression_remaining; cbv zeta
  | |- _ => holds_step
  end.

Lemma sweeps_substitute stack : holds R (sweeps env stack).
Proof.
  unfold sweeps, sweep_StaticQuery, sweep_useStaticQuery, sweep_remaining. cbv zeta.
  repeat substituting_step.
Qed.

End Invariant.

(** X15.  When [NODE_ENV] is neither [production] nor [test], no injector
    fires: all the three sweeps do is enqueue tags and replace templates by
    their hashes.  No binding is removed, no node is created. *)
Theorem development_only_substitutes env stack st st' :
  productionLike env = false →
  sweeps env stack st = Return () st' →
  scopes st' = scopes st
  ∧ nextId st' = nextId st
  ∧ ∃ l, log st' = log st ++ l ∧ Forall substitutionEvent l.
Proof.
  intros Henv Hrun.
  destruct (sweeps_substitute sameScopes env Henv stack _ _ _ Hrun) as [Hsc Hid].
  pose proof (sweeps_substitute (logs substitutionEvent) env Henv stack _ _ _ Hrun) as Hlog.
  done.
Qed.

End Development.

Lemma development_only_substitutes_witness :
  ∃ st', sweeps Sample.development 10 Sample.hook_query = Return () st'
    ∧ scopes st' = scopes Sample.hook_query
    ∧ nextId st' = nextId Sample.hook_query
    ∧ ∃ l, log st' = log Sample.hook_query ++ l ∧ Forall substitutionEvent l.
Proof.
  eexists. split; [vm_compute; reflexivity|].
  apply (development_only_substitutes (H := Sample.demo) Sample.development 10
           Sample.hook_query); vm_compute; reflexivity.
Defined.

(** ** The hook injector *)

Section BesideRemoval.

Lemma elem_of_alterKids f y rec l c' :
  c' ∈ alterKids f y rec l →
  ∃ c, c ∈ l ∧ ((nid c = y ∧ f c = Some c') ∨ (nid c ≠ y ∧ c' = rec c)).
Proof.
  induction l as [|k l IH]; cbn [alterKids]; [by intros ?%elem_of_nil|].
  destruct (decide (nid k = y)).
  - destruct (f k) as [k'|] eqn:Hk.
    + intros [->|Hin]%elem_of_cons.
      * exists k. split; [by left|]. by left.
      * destruct (IH Hin) as (c & Hc & Hcase). exists c. split; [by right|done].
    + intros (c & Hc & Hcase)%IH. exists c. split; [by right|done].
  - intros [->|Hin]%elem_of_cons.
    + exists k. split; [by left|]. by right.
    + destruct (IH Hin) as (c & Hc & Hcase). exists c. split; [by right|done].
Qed.

(** An edit brings into the tree no path but those of what it puts there. *)
Lemma findNode_stays_None f x r :
  (∀ c c', nid c = x → f c = Some c' → r ∉ ids c') →
  ∀ t, findNode r t = None → findNode r (alterNode f x t) = None.
Proof.
  intros Hf. induction t as [t IH] using Node_ind'. rewrite !findNode_None.
  intros Hnot. rewrite alterNode_eq. unfold ids in *. rewrite descendants_eq in *.
  apply not_elem_of_cons in Hnot as [Hne Hnot].
  apply not_elem_of_cons. split; [by destruct t|].
  replace (kids (setKids _ t)) with (alterKids f x (alterNode f x) (kids t)) by by destruct t.
  rewrite elem_of_flat_map_ids. intros (c' & Hc' & Hin).
  apply elem_of_alterKids in Hc' as (c & Hc & [[Hcx Hfc]|[Hcx ->]]).
  - by apply (Hf c c').
  - rewrite Forall_forall in IH. specialize (IH c Hc).
    rewrite !findNode_None in IH. apply IH; [|done].
    intros Hx. apply Hnot, elem_of_flat_map_ids. by exists c.
Qed.

Lemma findNode_in_kid y t l1 ck l2 d :
  NoDup (ids t) → nid t ≠ y → kids t = l1 ++ ck :: l2 →
  findNode y ck = Some d → findNode y t = Some d.
Proof.
  intros Hnd Hne Hks Hd. rewrite findNode_eq. destruct (decide _); [done|].
  apply NoDup_ids_kids in Hnd as [_ Hnd]. rewrite Hks in *.
  apply NoDup_flat_map_ids_split in Hnd as [_ Hsplit].
  assert (Hin : y ∈ ids ck).
  { destruct (decide (y ∈ ids ck)) as [|Hnot]; [done|].
    apply findNode_None in Hnot. congruence. }
  destruct (Hsplit _ Hin) as [Hl1 _].
  rewrite firstSome_app_None; [cbn [firstSome]; by rewrite Hd|].
  apply Forall_forall. intros k Hk. apply findNode_None. intros Hy.
  apply Hl1, elem_of_flat_map_ids. by exists k.
Qed.

(** A removal at [y] leaves the node at [x] as it is, when neither lies
    inside the other. *)
Lemma findNode_beside_removal x y : ∀ t c,
  NoDup (ids t) →
  findNode x t = Some c →
  y ∉ ids c →
  (∀ d, findNode y t = Some d → x ∉ ids d) →
  findNode x (alterNode (λ _, None) y t) = Some c.
Proof.
  induction t as [t IH] using Node_ind'. intros c Hnd Hfind Hy Hx.
  rewrite findNode_eq in Hfind. destruct (decide (nid t = x)) as [Heq|Hne].
  { injection Hfind as <-. rewrite alterNode_id by done. rewrite findNode_eq.
    by destruct (decide _). }
  apply firstSome_Some in Hfind as (l1 & ck & l2 & Hks & Hck & Hl1).
  assert (Hroot : nid t ≠ y).
  { intros Heq. specialize (Hx t). rewrite findNode_eq in Hx.
    destruct (decide (nid t = y)); [|done]. apply (Hx eq_refl).
    destruct (decide (x ∈ ids t)) as [|Hnot]; [done|].
    apply findNode_None in Hnot. rewrite findNode_eq in Hnot.
    destruct (decide (nid t = x)); [done|]. rewrite Hks in Hnot.
    rewrite firstSome_app_None in Hnot by done. cbn [firstSome] in Hnot.
    by rewrite Hck in Hnot. }
  rewrite findNode_eq, alterNode_nid. destruct (decide (nid t = x)); [done|].
  rewrite alterNode_eq.
  replace (kids (setKids _ t)) with
    (alterKids (λ _, None) y (alterNode (λ _, None) y) (kids t)) by by destruct t.
  rewrite Hks, alterKids_app. rewrite firstSome_app_None.
  2:{ apply Forall_forall. intros c' (k & Hk & [[_ [=]]|[_ ->]])%elem_of_alterKids.
      apply findNode_stays_None; [done|]. rewrite Forall_forall in Hl1. by apply Hl1. }
  cbn [alterKids]. destruct (decide (nid ck = y)) as [Hcy|Hcy].
  - exfalso. apply (Hx ck).
    + apply (findNode_in_kid y t l1 ck l2); [done..|].
      rewrite findNode_eq. by destruct (decide _).
    + destruct (decide (x ∈ ids ck)) as [|Hnot]; [done|].
      apply findNode_None in Hnot. congruence.
  - cbn [firstSome]. rewrite Forall_forall in IH. erewrite IH; [done| | |done|done|].
    + rewrite Hks. apply elem_of_app. right. left.
    + apply NoDup_ids_kids in Hnd as [_ Hnd]. rewrite Hks in Hnd.
      by apply NoDup_flat_map_ids_split in Hnd as [? _].
    + intros d Hd. apply Hx. by apply (findNode_in_kid y t l1 ck l2).
Qed.

Lemma ids_kid c t : c ∈ kids t → ids c ⊆ ids t.
Proof.
  intros Hc i Hi. unfold ids. rewrite descendants_eq. right.
  apply elem_of_flat_map_ids. by exists c.
Qed.

Lemma found_in_ids st n : pathNode st (nid n) = Some n → nid n ∈ ids (tree st).
Proof.
  intros Hn. destruct (decide (nid n ∈ ids (tree st))) as [|Hnot]; [done|].
  apply findNode_None in Hnot. unfold pathNode in Hn. congruence.
Qed.

Lemma found_is_not_root st n :
  pathNode st (nid n) = Some n → type n ≠ type (tree st) → nid (tree st) ≠ nid n.
Proof.
  intros Hn Hty Heq. unfold pathNode in Hn. rewrite findNode_eq in Hn.
  destruct (decide _); [|done]. congruence.
Qed.

Lemma remove_run by_ n st :
  key n ≠ "declaration" →
  nid (tree st) ≠ nid n →
  ∃ st', remove by_ n st = Return () st'
    ∧ tree st' = alterNode (λ _, None) (nid n) (tree st)
    ∧ nextId st' = nextId st
    ∧ log st' = log st ++ [EvRemove by_ (nid n)].
Proof.
  intros Hkey Hroot. unfold remove. erewrite bind_run by apply read_run.
  rewrite modify_run. eexists. split; [reflexivity|].
  rewrite bool_decide_false by done. cbn [andb tree addLog setTree nextId log].
  destruct (parentPath st (nid n)); by rewrite alterNode_remove_twice.
Qed.

End BesideRemoval.

Section HookInjector.
Context `{Externals}.

(** What [addImport] leaves: a default import of [identifier] from the
    result file at the head of the program, every older node where it
    was. *)
Lemma addImport_run env queryHash identifier st :
  ∃ st', addImport env queryHash identifier st = Return () st'
    ∧ leadingImportLocal st' = Some identifier
    ∧ leadingImportSource st' = Some (resultSource env queryHash)
    ∧ scopes st' = scopes st
    ∧ log st' = log st ++ [EvInject (nextId st)]
    ∧ ∀ i, nid (tree st) ≠ i → i < nextId st → pathNode st' i = pathNode st i.
Proof.
  set (n := nextId st). set (sc := scope (tree st)).
  set (declaration :=
         branch n ImportDeclaration "body" sc
           [ branch (S n) ImportDefaultSpecifier "specifiers" sc
               [ leaf (S (S n)) Identifier "local" (Some identifier) None sc ];
             leaf (S (S (S n))) StringLiteral "source" None
               (Some (resultSource env queryHash)) sc ]).
  exists (addLog (EvInject n)
            (setTree (setKids (declaration :: kids (tree st)) (tree st))
               (setNextId (S (S (S (S n)))) st))).
  split.
  { unfold addImport. erewrite bind_run by apply read_run.
    do 4 (erewrite bind_run by apply fresh_run).
    erewrite bind_run by apply modify_run. by rewrite modify_run. }
  split; [done|]. split; [done|]. split; [done|]. split; [done|].
  intros i Hroot Hold. unfold pathNode. cbn [tree addLog setTree].
  assert (Hdecl : findNode i declaration = None).
  { apply findNode_None. unfold declaration, ids. simpl.
    rewrite !not_elem_of_cons. repeat split; try lia. apply not_elem_of_nil. }
  rewrite (findNode_eq i (tree st)), findNode_eq. cbn [nid setKids kids].
  destruct (decide (nid (tree st) = i)); [done|].
  cbn [firstSome]. by rewrite Hdecl.
Qed.

(** X16.  A hook call through a property access ([Gatsby.useStaticQuery(...)]
    with [Gatsby] imported from [gatsby]), in production or test mode: the
    call is replaced, in its place, by [staticQueryData.data]; a default
    import of [staticQueryData] from the result file is put at the head of
    the program; nothing is removed and no binding is touched. *)
Theorem hook_call_through_namespace_is_rewritten env queryHash st path2 :
  type (tree st) = Program →
  productionLike env = true →
  pathNode st (nid path2) = Some path2 →
  type path2 = CallExpression →
  isUseStaticQuery st path2 = true →
  isType MemberExpression (get "callee" path2) = true →
  nid path2 < nextId st →
  ∃ st' replaced,
    nestedHookVisitor env queryHash path2 st = Return () st'
    ∧ pathNode st' (nid path2) = Some replaced
    ∧ type replaced = MemberExpression
    ∧ key replaced = key path2
    ∧ nameOf (get "object" replaced) = Some "staticQueryData"
    ∧ nameOf (get "property" replaced) = Some "data"
    ∧ leadingImportLocal st' = Some "staticQueryData"
    ∧ leadingImportSource st' = Some (resultSource env queryHash)
    ∧ scopes st' = scopes st
    ∧ ∃ d, log st' = log st ++ [EvReplace (nid path2); EvInject d].
Proof.
  intros Hprogram Henv Hfind Hty Hhook Hmember Hfresh.
  assert (Hroot : nid (tree st) ≠ nid path2) by (apply found_is_not_root; [done|congruence]).
  set (n := nextId st) in *.
  set (st2 := setNextId (S (S n)) st).
  set (new := branch (nid path2) MemberExpression (key path2) (scope path2)
                [ leaf n Identifier "object" (Some "staticQueryData") None (scope path2);
                  leaf (S n) Identifier "property" (Some "data") None (scope path2) ]).
  destruct (replaceWith_found st2 (nid path2) new path2 Hroot Hfind)
    as (st3 & Hreplace & Hreplaced & _ & Hlog3).
  destruct (addImport_run env queryHash "staticQueryData" st3)
    as (st' & Himport & Hlocal & Hsource & Hscopes & Hlog & Hold).
  assert (Hst3 : scopes st3 = scopes st ∧ nextId st3 = S (S n) ∧ nid (tree st3) = nid (tree st)).
  { unfold replaceWith in Hreplace. rewrite modify_run in Hreplace.
    injection Hreplace as <-. cbn [scopes nextId tree addLog setTree st2 setNextId].
    by rewrite alterNode_nid. }
  destruct Hst3 as (Hsc3 & Hid3 & Hroot3).
  exists st', (mkNode (nid path2) (type new) (key path2) (name new) (value new) (raw new)
                 (loc new) (scope path2) (kids new)).
  split.
  { unfold nestedHookVisitor. rewrite Hty.
    rewrite (bool_decide_true (CallExpression = CallExpression)) by done. cbn [when].
    erewrite bind_run by apply read_run. rewrite Hhook, Henv. cbn [andb when].
    rewrite Hmember. cbn [negb when].
    erewrite bind_run by reflexivity.
    do 2 (erewrite bind_run by apply fresh_run).
    erewrite bind_run by exact Hreplace. exact Himport. }
  split.
  { rewrite Hold; [done|congruence|lia]. }
  split; [done|]. split; [done|]. split; [done|]. split; [done|].
  split; [done|]. split; [done|]. split; [congruence|].
  exists (nextId st3). by rewrite Hlog, Hlog3, <-app_assoc.
Qed.

(** X17.  A bare hook call ([useStaticQuery(...)] with [useStaticQuery] a
    named import from [gatsby]), in production or test mode, the call and
    the import declaration lying apart in a tree of distinct paths: the
    injector removes the import at once: the whole declaration when the
    specifier is its only one, else the specifier.  Then it replaces the
    call by [staticQueryData.data] and puts the default import of
    [staticQueryData] at the head of the program. *)
Theorem bare_hook_call_loses_its_import env queryHash st path2 binding importPath decl :
  NoDup (ids (tree st)) →
  type (tree st) = Program →
  (∀ i, i ∈ ids (tree st) → i < nextId st) →
  productionLike env = true →
  pathNode st (nid path2) = Some path2 →
  type path2 = CallExpression →
  isUseStaticQuery st path2 = true →
  isType MemberExpression (get "callee" path2) = false →
  getBinding st (scope path2) (Some "useStaticQuery") = Some binding →
  pathNode st (path binding) = Some importPath →
  type importPath = ImportSpecifier →
  parentPath st (path binding) = Some decl →
  type decl = ImportDeclaration →
  key decl = "body" →
  importPath ∈ getList "specifiers" decl →
  (∀ i, i ∈ ids decl → i ∉ ids path2) →
  let removed :=
    if bool_decide (length (getList "specifiers" decl) = 1) then decl else importPath in
  ∃ st' replaced,
    nestedHookVisitor env queryHash path2 st = Return () st'
    ∧ pathNode st' (nid removed) = None
    ∧ pathNode st' (nid path2) = Some replaced
    ∧ type replaced = MemberExpression
    ∧ key replaced = key path2
    ∧ nameOf (get "object" replaced) = Some "staticQueryData"
    ∧ nameOf (get "property" replaced) = Some "data"
    ∧ leadingImportLocal st' = Some "staticQueryData"
    ∧ leadingImportSource st' = Some (resultSource env queryHash)
    ∧ ∃ d, log st' = log st ++ [EvRemove ByHookInjector (nid removed);
                                 EvReplace (nid path2); EvInject d].
Proof.
  intros Hnd Hprogram Hbelow Henv Hfind Hty Hhook Hbare Hb Hspec Htys Hdecl Htyd Hkeyd
    Hin Hapart removed.
  destruct (getList_key _ _ _ Hin) as [Hkeys Hkid].
  pose proof (findNode_nid _ _ _ Hspec) as Hpath.
  destruct (parentPath_ancestors _ _ _ Hdecl) as [up Hup].
  assert (Hdfind : pathNode st (nid decl) = Some decl).
  { apply (ancestors_found _ _ _ Hnd Hup). left. }
  assert (Hrfind : pathNode st (nid removed) = Some removed).
  { unfold removed. destruct (bool_decide _); [done|]. by rewrite Hpath. }
  assert (Hrin : ids removed ⊆ ids decl).
  { unfold removed. destruct (bool_decide _); [done|]. by apply ids_kid. }
  assert (Hrkey : key removed ≠ "declaration").
  { unfold removed. destruct (bool_decide _); congruence. }
  assert (Hrroot : nid (tree st) ≠ nid removed).
  { apply found_is_not_root; [done|]. unfold removed. destruct (bool_decide _); congruence. }
  assert (Hroot : nid (tree st) ≠ nid path2) by (apply found_is_not_root; [done|congruence]).
  destruct (remove_run ByHookInjector removed st Hrkey Hrroot)
    as (st1 & Hrm & Htree1 & Hid1 & Hlog1).
  assert (Hgone1 : pathNode st1 (nid removed) = None).
  { unfold pathNode. rewrite Htree1. by apply findNode_removed. }
  assert (Hfind1 : pathNode st1 (nid path2) = Some path2).
  { unfold pathNode. rewrite Htree1. apply findNode_beside_removal; [done..| |].
    - apply Hapart, Hrin, nid_in_ids.
    - intros d Hd. unfold pathNode in Hrfind. rewrite Hrfind in Hd. injection Hd as <-.
      intros Hx. by apply (Hapart _ (Hrin _ Hx)), nid_in_ids. }
  assert (Hroot1 : nid (tree st1) = nid (tree st)) by by rewrite Htree1, alterNode_nid.
  set (n := nextId st) in *.
  set (st2 := setNextId (S (S n)) st1).
  set (new := branch (nid path2) MemberExpression (key path2) (scope path2)
                [ leaf n Identifier "object" (Some "staticQueryData") None (scope path2);
                  leaf (S n) Identifier "property" (Some "data") None (scope path2) ]).
  destruct (replaceWith_found st2 (nid path2) new path2)
    as (st3 & Hreplace & Hreplaced & _ & Hlog3);
    [by rewrite <-Hroot1 in Hroot|done|].
  assert (Hst3 : tree st3 = alterNode (λ old, Some (mkNode (nid old) (type new) (key old)
                                  (name new) (value new) (raw new) (loc new) (scope old)
                                  (kids new))) (nid path2) (tree st1)
                 ∧ nextId st3 = S (S n)).
  { unfold replaceWith in Hreplace. rewrite modify_run in Hreplace. by injection Hreplace as <-. }
  destruct Hst3 as [Htree3 Hid3].
  assert (Hrold : nid removed < n) by by apply Hbelow, found_in_ids.
  assert (Hne : nid removed ≠ nid path2).
  { intros Heq. apply (Hapart (nid removed)); [apply Hrin, nid_in_ids|].
    rewrite Heq. apply nid_in_ids. }
  assert (Hgone3 : pathNode st3 (nid removed) = None).
  { unfold pathNode. rewrite Htree3. apply findNode_stays_None; [|done].
    intros c c' Hc [= <-]. unfold ids. simpl. rewrite !not_elem_of_cons.
    repeat split; [congruence|lia|lia|apply not_elem_of_nil]. }
  destruct (addImport_run env queryHash "staticQueryData" st3)
    as (st' & Himport & Hlocal & Hsource & _ & Hlog & Hold).
  assert (Hroot3 : nid (tree st3) = nid (tree st)).
  { by rewrite Htree3, alterNode_nid. }
  exists st', (mkNode (nid path2) (type new) (key path2) (name new) (value new) (raw new)
                 (loc new) (scope path2) (kids new)).
  split.
  { unfold nestedHookVisitor. rewrite Hty.
    rewrite (bool_decide_true (CallExpression = CallExpression)) by done. cbn [when].
    erewrite bind_run by apply read_run. rewrite Hhook, Henv. cbn [andb when].
    rewrite Hbare. cbn [negb when].
    erewrite bind_run.
    2:{ erewrite bind_run by apply read_run. rewrite Hb.
        erewrite bind_run by apply read_run. erewrite bind_run by apply read_run.
        rewrite Hspec, Hdecl. cbn [isType from_option]. rewrite Htys.
        rewrite (bool_decide_true (ImportSpecifier = ImportSpecifier)) by done. cbn [when].
        unfold removed in Hrm. destruct (bool_decide _); exact Hrm. }
    do 2 (erewrite bind_run by apply fresh_run).
    cbn [nextId setNextId]. rewrite Hid1.
    erewrite bind_run by exact Hreplace. exact Himport. }
  split. { rewrite Hold; [done|congruence|lia]. }
  split.
  { rewrite Hold; [done|congruence|]. rewrite Hid3.
    by apply Nat.lt_lt_succ_r, Nat.lt_lt_succ_r, Hbelow, found_in_ids. }
  split; [done|]. split; [done|]. split; [done|]. split; [done|]. split; [done|].
  split; [done|].
  exists (nextId st3). rewrite Hlog, Hlog3. unfold st2. cbn [log setNextId].
  by rewrite Hlog1, <-!app_assoc.
Qed.

End HookInjector.

Lemma hook_call_through_namespace_is_rewritten_witness :
  ∃ st' replaced,
    nestedHookVisitor Sample.production "5" Sample.namespace_hook_call Sample.namespace_hook
    = Return () st'
    ∧ pathNode st' 30 = Some replaced
    ∧ type replaced = MemberExpression
    ∧ key replaced = "init"
    ∧ nameOf (get "object" replaced) = Some "staticQueryData"
    ∧ nameOf (get "property" replaced) = Some "data"
    ∧ leadingImportLocal st' = Some "staticQueryData"
    ∧ leadingImportSource st' = Some "public/static/d/5.json"
    ∧ scopes st' = scopes Sample.namespace_hook
    ∧ ∃ d, log st' = log Sample.namespace_hook ++ [EvReplace 30; EvInject d].
Proof.
  apply (hook_call_through_namespace_is_rewritten (H := Sample.demo) Sample.production "5"
           Sample.namespace_hook Sample.namespace_hook_call);
    try (vm_compute; reflexivity).
  vm_compute. lia.
Defined.

Lemma NoDup_ids_hook_query : NoDup (ids (tree Sample.hook_query)).
Proof. apply (bool_decide_unpack _ (dec := NoDup_dec _)). vm_compute. exact I. Defined.

Lemma bare_hook_call_loses_its_import_witness :
  ∃ st' replaced,
    nestedHookVisitor Sample.production "5" Sample.hook_call Sample.hook_query = Return () st'
    ∧ pathNode st' 12 = None
    ∧ pathNode st' 30 = Some replaced
    ∧ type replaced = MemberExpression
    ∧ key replaced = "init"
    ∧ nameOf (get "object" replaced) = Some "staticQueryData"
    ∧ nameOf (get "property" replaced) = Some "data"
    ∧ leadingImportLocal st' = Some "staticQueryData"
    ∧ leadingImportSource st' = Some "public/static/d/5.json"
    ∧ ∃ d, log st' = log Sample.hook_query
                     ++ [EvRemove ByHookInjector 12; EvReplace 30; EvInject d].
Proof.
  apply (bare_hook_call_loses_its_import (H := Sample.demo) Sample.production "5"
           Sample.hook_query Sample.hook_call (Sample.moduleBinding 12)
           (Sample.importSpecifier 12 "useStaticQuery" "useStaticQuery")
           (Sample.importDeclaration 10
              [ Sample.importSpecifier 12 "useStaticQuery" "useStaticQuery";
                Sample.importSpecifier 15 "graphql" "graphql" ] "gatsby"));
    try (vm_compute; reflexivity).
  - exact NoDup_ids_hook_query.
  - apply Forall_forall. apply (bool_decide_unpack _). vm_compute. exact I.
  - vm_compute. left.
  - apply Forall_forall. apply (bool_decide_unpack _). vm_compute. exact I.
Defined.
